(** * Kettlebell rep segmentation and anaerobic-threshold (ANT) detection

    Shallow embedding of [api/services/rep_detector.py] and
    [api/services/ant_calculator.py].

    Numbers: Python floats are modelled as exact rationals [Q]; Python ints
    as [Z] (configuration values, ANT index) or [nat] (array indices that
    are produced by [range] and therefore never negative).  Comparisons of
    floats become the boolean comparisons below. *)

From Stdlib Require Import String QArith Qabs Qminmax Qround ZArith List Bool Lia Lqa Sorted.
Import ListNotations.

Open Scope Q_scope.

(* ------------------------------------------------------------------ *)
(** ** Numeric helpers (numpy primitives) *)

Definition Qltb (a b : Q) : bool := negb (Qle_bool b a).
Definition Qleb (a b : Q) : bool := Qle_bool a b.

(** [sum] of a list of floats. *)
Definition Qsum (l : list Q) : Q := fold_right Qplus 0 l.

(** [np.mean]: sum divided by length (only ever applied to non-empty
    slices for a validated configuration). *)
Definition np_mean (l : list Q) : Q := Qsum l / inject_Z (Z.of_nat (length l)).

(** [np.diff]. *)
Fixpoint np_diff (l : list Q) : list Q :=
  match l with
  | a :: ((b :: _) as rest) => (b - a) :: np_diff rest
  | _ => []
  end.

(** [np.max] / [np.min] of a non-empty array (the head is the default for
    the empty case, which the code never reaches). *)
Definition np_max (l : list Q) : Q :=
  match l with
  | [] => 0
  | a :: rest => fold_left Qmax rest a
  end.

Definition np_min (l : list Q) : Q :=
  match l with
  | [] => 0
  | a :: rest => fold_left Qmin rest a
  end.

(** [np.sign] of a float. *)
Definition np_sign (q : Q) : Z :=
  if Qltb 0 q then 1%Z else if Qltb q 0 then (-1)%Z else 0%Z.

(** Python slice [l[a:b]] for non-negative bounds. *)
Definition py_slice {A} (l : list A) (a b : nat) : list A :=
  firstn (b - a) (skipn a l).

(** Python indexing [l[i]] with a (possibly negative) int; [None] is
    [IndexError]. *)
Definition py_index {A} (l : list A) (i : Z) : option A :=
  if (0 <=? i)%Z then nth_error l (Z.to_nat i)
  else if (- Z.of_nat (length l) <=? i)%Z
       then nth_error l (Z.to_nat (Z.of_nat (length l) + i))
       else None.

(** Python prefix slice [l[:n]] with a (possibly negative) int. *)
Definition py_take {A} (l : list A) (n : Z) : list A :=
  if (0 <=? n)%Z then firstn (Z.to_nat n) l
  else firstn (Z.to_nat (Z.of_nat (length l) + n)) l.

(* ------------------------------------------------------------------ *)
(** ** Data model ([models/schemas.py], [rep_detector.py]) *)

Inductive MovementType :=
| SNATCH_LEFT | SNATCH_RIGHT | SWING_LEFT | SWING_RIGHT | TWO_ARM_SWING.

Record PositionSample := mkSample {
  t : Q;
  x : Q;
  y : Q;
  confidence : Q
}.

Record DetectedRep := mkRep {
  start_idx : nat;
  end_idx : nat;
  start_time : Q;
  end_time : Q;
  duration : Q;
  peak_speed : Q;
  vertical_displacement : Q;
  is_valid : bool
}.

(* ------------------------------------------------------------------ *)
(** ** [ant_calculator.py] *)

Record ANTResult := mkANTResult {
  ant_reached : bool;
  ant_rep_index : option Z;
  ant_timestamp_seconds : option Q;
  baseline_speed : Q;
  drop_percent_at_ant : option Q;
  smoothed_speeds : list Q;
  threshold_flags : list bool
}.

Record ANTCalculator := mkANTCalculator {
  baseline_reps : Z;
  drop_threshold : Q;
  smoothing_window : Z;
  sustain_count : Z
}.

Inductive ValueError := mkValueError (msg : string).

(** [ANTCalculator.__init__]: the four guards, in source order. *)
Definition ANTCalculator_init (baseline_reps : Z) (drop_threshold : Q)
    (smoothing_window sustain_count : Z) : ValueError + ANTCalculator :=
  if (baseline_reps <? 3)%Z then inl (mkValueError "baseline_reps must be at least 3"%string)
  else if negb (Qltb 0 drop_threshold && Qltb drop_threshold 1)
  then inl (mkValueError "drop_threshold must be between 0 and 1"%string)
  else if (smoothing_window <? 1)%Z then inl (mkValueError "smoothing_window must be at least 1"%string)
  else if (sustain_count <? 1)%Z then inl (mkValueError "sustain_count must be at least 1"%string)
  else inr (mkANTCalculator baseline_reps drop_threshold smoothing_window sustain_count).

(** [ANTCalculator._smooth]: trimmed centred moving average. *)
Definition ant_smooth (data : list Q) (window : Z) : list Q :=
  let n := Z.of_nat (length data) in
  if (window <=? 1)%Z || (n <? window)%Z then data
  else
    let half_window := (window / 2)%Z in
    map (fun i : nat =>
           let start := Z.max 0 (Z.of_nat i - half_window) in
           let end_ := Z.min n (Z.of_nat i + half_window + 1) in
           np_mean (py_slice data (Z.to_nat start) (Z.to_nat end_)))
        (seq 0 (length data)).

(** [ANTCalculator._find_sustained_drop]: the [for i, is_below in
    enumerate(...)] loop, with [i] and [consecutive_count] threaded. *)
Fixpoint find_sustained_drop_loop (below : list bool) (i consecutive_count sustain_count : Z)
  : option Z :=
  match below with
  | [] => None
  | is_below :: rest =>
      if is_below then
        let c := (consecutive_count + 1)%Z in
        if (sustain_count <=? c)%Z then Some (i - sustain_count + 1)%Z
        else find_sustained_drop_loop rest (i + 1) c sustain_count
      else find_sustained_drop_loop rest (i + 1) 0 sustain_count
  end.

Definition find_sustained_drop (below : list bool) (sustain_count : Z) : option Z :=
  find_sustained_drop_loop below 0 0 sustain_count.

Definition insufficient_result : ANTResult :=
  mkANTResult false None None 0 None [] [].

(** [ANTCalculator.calculate]; [None] is an [IndexError] raised by
    [valid_reps[ant_rep_index]] or [smoothed_speeds[ant_rep_index]]. *)
Definition calculate (c : ANTCalculator) (reps : list DetectedRep) : option ANTResult :=
  let valid_reps := filter is_valid reps in
  if (Z.of_nat (length valid_reps) <? baseline_reps c + sustain_count c)%Z
  then Some insufficient_result
  else
    let speeds := map peak_speed valid_reps in
    let baseline := np_mean (py_take speeds (baseline_reps c)) in
    if Qleb baseline 0 then
      Some (mkANTResult false None None 0 None speeds (repeat false (length speeds)))
    else
      let smoothed := ant_smooth speeds (smoothing_window c) in
      let threshold_speed := baseline * (1 - drop_threshold c) in
      let flags := map (fun s => Qltb s threshold_speed) smoothed in
      match find_sustained_drop flags (sustain_count c) with
      | Some j =>
          match py_index valid_reps j, py_index smoothed j with
          | Some r, Some cur =>
              Some (mkANTResult true (Some j) (Some (start_time r)) baseline
                      (Some ((baseline - cur) / baseline)) smoothed flags)
          | _, _ => None
          end
      | None => Some (mkANTResult false None None baseline None smoothed flags)
      end.

(* ------------------------------------------------------------------ *)
(** ** [rep_detector.py]: [RepDetector] *)

Definition MIN_VERTICAL_DISPLACEMENT_SWING : Q := 15 # 100.
Definition MIN_VERTICAL_DISPLACEMENT_SNATCH : Q := 25 # 100.
Definition MAX_REP_DURATION : Q := 4.
Definition MIN_REP_DURATION : Q := 4 # 10.
Definition VELOCITY_SMOOTHING_WINDOW : nat := 3.
Definition MIN_SAMPLES_BETWEEN_PEAKS : nat := 5.

Record RepDetector := mkRepDetector {
  movement_type : MovementType;
  min_confidence : Q;
  min_vertical_displacement : Q
}.

(** [RepDetector.__init__]. *)
Definition RepDetector_init (movement_type : MovementType) (min_confidence : Q) : RepDetector :=
  mkRepDetector movement_type min_confidence
    (match movement_type with
     | SNATCH_LEFT | SNATCH_RIGHT => MIN_VERTICAL_DISPLACEMENT_SNATCH
     | _ => MIN_VERTICAL_DISPLACEMENT_SWING
     end).

(** [RepDetector._smooth_signal]: edge-padded moving average computed as
    [np.convolve(padded, ones(window)/window, mode='valid')]. *)
Definition smooth_signal (signal : list Q) (window : nat) : list Q :=
  if (window <=? 1)%nat || (length signal <? window)%nat then signal
  else
    let kernel_w := 1 # Pos.of_nat window in
    let padded := repeat (hd 0 signal) (window / 2)
                  ++ signal ++ repeat (last signal 0) (window - 1 - window / 2) in
    map (fun i => Qsum (map (fun p => p * kernel_w) (firstn window (skipn i padded))))
        (seq 0 (length padded - window + 1)).

(** One iteration of the loop of [RepDetector._find_peaks]; the list of
    accepted peaks is kept newest first, so [peaks[-1]] is its head. *)
Definition find_peaks_step (signal : list Q) (min_distance : nat)
    (peaks : list nat) (i : nat) : list nat :=
  if Qltb (nth (i - 1) signal 0) (nth i signal 0)
     && Qltb (nth (i + 1) signal 0) (nth i signal 0) then
    match peaks with
    | [] => [i]
    | last_peak :: older =>
        if (min_distance <=? i - last_peak)%nat then i :: peaks
        else if Qltb (nth last_peak signal 0) (nth i signal 0) then i :: older
        else peaks
    end
  else peaks.

(** [RepDetector._find_peaks]: [for i in range(1, len(signal) - 1)]. *)
Definition find_peaks (signal : list Q) (min_distance : nat) : list nat :=
  rev (fold_left (find_peaks_step signal min_distance) (seq 1 (length signal - 2)) []).

(** [RepDetector._calculate_peak_speed]. *)
Definition calculate_peak_speed (times : list Q) (samples : list PositionSample) : Q :=
  if (length times <? 2)%nat then 0
  else
    let y_positions := map y samples in
    let dt := map (fun d => if Qltb 0 d then d else 1 # 1000) (np_diff times) in
    let dy := np_diff y_positions in
    let velocities := map (fun '(a, b) => Qabs (a / b)) (combine dy dt) in
    let velocities :=
      if (VELOCITY_SMOOTHING_WINDOW <=? length velocities)%nat
      then smooth_signal velocities VELOCITY_SMOOTHING_WINDOW else velocities in
    if (0 <? length velocities)%nat then np_max velocities else 0.

(** [np.diff] on the integer array returned by [np.sign]. *)
Fixpoint z_diff (l : list Z) : list Z :=
  match l with
  | a :: ((b :: _) as rest) => (b - a)%Z :: z_diff rest
  | _ => []
  end.

(** [np.sum(np.abs(np.diff(np.sign(v))) > 0)]. *)
Definition sign_changes (v : list Q) : nat :=
  length (filter (fun d => (0 <? Z.abs d)%Z) (z_diff (map np_sign v))).

(** [RepDetector._validate_rep]. *)
Definition validate_rep (rd : RepDetector) (duration vertical_displacement : Q)
    (y_segment : list Q) : bool :=
  if Qltb duration MIN_REP_DURATION || Qltb MAX_REP_DURATION duration then false
  else if Qltb vertical_displacement (min_vertical_displacement rd) then false
  else if (length y_segment <? 5)%nat then true
  else
    let dy := np_diff y_segment in
    let dy_smooth := if (3 <=? length dy)%nat then smooth_signal dy 3 else dy in
    if (Nat.max 8 (length y_segment / 3) <? sign_changes dy_smooth)%nat then false
    else true.

(** Body of the loop of [RepDetector._segment_reps] for the peak pair
    [(start_idx, end_idx)]; [None] is the [continue].  The peak indices lie
    inside the arrays, so [times[i]] is [nth i times 0]. *)
Definition segment_one (rd : RepDetector) (times y_raw : list Q)
    (samples : list PositionSample) (start_idx end_idx : nat) : option DetectedRep :=
  let start_time := nth start_idx times 0 in
  let end_time := nth end_idx times 0 in
  let duration := end_time - start_time in
  let y_segment := py_slice y_raw start_idx (end_idx + 1) in
  if (length y_segment <? 2)%nat then None
  else
    let vertical_displacement := np_max y_segment - np_min y_segment in
    let peak_speed := calculate_peak_speed (py_slice times start_idx (end_idx + 1))
                                           (py_slice samples start_idx (end_idx + 1)) in
    let is_valid := validate_rep rd duration vertical_displacement y_segment in
    Some (mkRep start_idx end_idx start_time end_time duration peak_speed
                vertical_displacement is_valid).

(** [RepDetector._segment_reps]: one rep per pair of consecutive peaks. *)
Fixpoint segment_pairs (rd : RepDetector) (times y_raw : list Q)
    (samples : list PositionSample) (peaks : list nat) : list DetectedRep :=
  match peaks with
  | p :: ((q :: _) as rest) =>
      match segment_one rd times y_raw samples p q with
      | Some r => r :: segment_pairs rd times y_raw samples rest
      | None => segment_pairs rd times y_raw samples rest
      end
  | _ => []
  end.

Definition segment_reps (rd : RepDetector) (times y_raw y_smooth : list Q)
    (peaks valleys : list nat) (samples : list PositionSample) : list DetectedRep :=
  segment_pairs rd times y_raw samples peaks.

(** [RepDetector.detect_reps]. *)
Definition detect_reps (rd : RepDetector) (samples : list PositionSample) : list DetectedRep :=
  if (length samples <? MIN_SAMPLES_BETWEEN_PEAKS * 2)%nat then []
  else
    let valid_samples := filter (fun s => Qleb (min_confidence rd) (confidence s)) samples in
    if (length valid_samples <? MIN_SAMPLES_BETWEEN_PEAKS * 2)%nat then []
    else
      let times := map t valid_samples in
      let y_positions := map y valid_samples in
      let y_smooth := smooth_signal y_positions VELOCITY_SMOOTHING_WINDOW in
      let peaks := find_peaks (map Qopp y_smooth) MIN_SAMPLES_BETWEEN_PEAKS in
      let valleys := find_peaks y_smooth MIN_SAMPLES_BETWEEN_PEAKS in
      if (length peaks <? 2)%nat && (length valleys <? 2)%nat then []
      else segment_reps rd times y_positions y_smooth peaks valleys valid_samples.

(* ------------------------------------------------------------------ *)
(** ** [rep_detector.py]: [StreamingRepDetector] *)

Record StreamingRepDetector := mkStreaming {
  detector : RepDetector;
  buffer_seconds : Q;
  buffer : list PositionSample;            (* [self.samples] *)
  detected_reps : list DetectedRep;
  last_processed_idx : nat
}.

Definition StreamingRepDetector_init (movement_type : MovementType)
    (buffer_seconds min_confidence : Q) : StreamingRepDetector :=
  mkStreaming (RepDetector_init movement_type min_confidence) buffer_seconds [] [] 0.

(** The [while self.samples and self.samples[0].t < cutoff_time] loop. *)
Fixpoint prune (cutoff_time : Q) (samples : list PositionSample) (lpi : nat)
  : list PositionSample * nat :=
  match samples with
  | s :: rest =>
      if Qltb (t s) cutoff_time then prune cutoff_time rest (Nat.max 0 (lpi - 1))
      else (samples, lpi)
  | [] => ([], lpi)
  end.

Definition rep_key (r : DetectedRep) : Q * Q := (start_time r, end_time r).

(** Membership in a Python set of float pairs (float equality). *)
Definition key_mem (k : Q * Q) (ks : list (Q * Q)) : bool :=
  existsb (fun k' => Qeq_bool (fst k) (fst k') && Qeq_bool (snd k) (snd k')) ks.

(** [StreamingRepDetector.add_sample]: returns the new reps and the new
    detector state.  [existing_times] is computed once, before the loop. *)
Definition add_sample (st : StreamingRepDetector) (sample : PositionSample)
  : list DetectedRep * StreamingRepDetector :=
  let samples1 := buffer st ++ [sample] in
  let cutoff_time := t (last samples1 sample) - buffer_seconds st in
  let '(samples2, lpi) := prune cutoff_time samples1 (last_processed_idx st) in
  let all_reps := detect_reps (detector st) samples2 in
  let existing_times := map rep_key (detected_reps st) in
  let new_reps := filter (fun r => negb (key_mem (rep_key r) existing_times)) all_reps in
  (new_reps, mkStreaming (detector st) (buffer_seconds st) samples2
                         (detected_reps st ++ new_reps) lpi).

Definition get_all_reps (st : StreamingRepDetector) : list DetectedRep := detected_reps st.

(** Feeding a whole sequence one sample at a time. *)
Definition feed_all (st : StreamingRepDetector) (samples : list PositionSample)
  : StreamingRepDetector :=
  fold_left (fun st s => snd (add_sample st s)) samples st.

(* ------------------------------------------------------------------ *)
(** ** Reference notions used in the statements *)

(** [flags[j]], ..., [flags[j+k-1]] all exist and are [True]. *)
Definition window_true (flags : list bool) (j k : nat) : Prop :=
  forall m, (m < k)%nat -> nth_error flags (j + m) = Some true.

(** [j] is where the first run of at least [k] consecutive [True] values of
    [flags] begins: such a run starts at [j] (at a run boundary), and none
    starts earlier. *)
Definition first_run_at (flags : list bool) (k j : nat) : Prop :=
  window_true flags j k
  /\ (j = 0%nat \/ nth_error flags (j - 1) = Some false)
  /\ forall j', (j' < j)%nat -> ~ window_true flags j' k.

Definition fsd_outcome (L : list bool) (k : nat) (o : option Z) : Prop :=
  (exists j, o = Some (Z.of_nat j) /\ first_run_at L k j)
  \/ (o = None /\ forall j, ~ window_true L j k).

(** Loop invariant after [i] iterations with [consecutive_count = c]. *)
Definition fsd_inv (L : list bool) (k : nat) (i c : nat) : Prop :=
  (c <= i)%nat /\ (c < k)%nat
  /\ (forall m, (m < c)%nat -> nth_error L (i - 1 - m) = Some true)
  /\ (c = i \/ nth_error L (i - 1 - c) = Some false)
  /\ (forall j, (j + k <= i)%nat -> ~ window_true L j k).

(** The conditions enforced by [ANTCalculator.__init__]. *)
Definition valid_config (c : ANTCalculator) : Prop :=
  (3 <= baseline_reps c)%Z /\ 0 < drop_threshold c /\ drop_threshold c < 1
  /\ (1 <= smoothing_window c)%Z /\ (1 <= sustain_count c)%Z.

Definition valid_speeds (reps : list DetectedRep) : list Q :=
  map peak_speed (filter is_valid reps).

Definition baseline_of (c : ANTCalculator) (reps : list DetectedRep) : Q :=
  np_mean (py_take (valid_speeds reps) (baseline_reps c)).

(** Fields of the "insufficient data" result. *)
Definition is_insufficient_result (res : ANTResult) : Prop :=
  ant_reached res = false /\ baseline_speed res == 0
  /\ smoothed_speeds res = [] /\ threshold_flags res = []
  /\ ant_rep_index res = None /\ ant_timestamp_seconds res = None
  /\ drop_percent_at_ant res = None.

(** The centred trimmed average the spec describes: the mean of
    [data[k]] for [max(0, i - w//2) <= k < min(n, i + w//2 + 1)]. *)
Definition trimmed_mean (data : list Q) (w : Z) (i : nat) : Q :=
  let n := Z.of_nat (length data) in
  let lo := Z.max 0 (Z.of_nat i - w / 2) in
  let hi := Z.min n (Z.of_nat i + w / 2 + 1) in
  Qsum (map (fun k => nth k data 0) (seq (Z.to_nat lo) (Z.to_nat (hi - lo))))
  / inject_Z (hi - lo).

Definition confident (rd : RepDetector) (s : PositionSample) : bool :=
  Qleb (min_confidence rd) (confidence s).

(** Movement-specific minimum displacement named in the spec. *)
Definition displacement_minimum (mt : MovementType) : Q :=
  match mt with
  | SNATCH_LEFT | SNATCH_RIGHT => 25 # 100
  | SWING_LEFT | SWING_RIGHT | TWO_ARM_SWING => 15 # 100
  end.

(** The arc-smoothness criterion: vacuous below 5 samples; otherwise the
    sign changes of the (3-sample smoothed when it has at least 3 points)
    first difference are at most [max(8, len // 3)]. *)
Definition arc_smooth_ok (seg : list Q) : Prop :=
  (length seg < 5)%nat
  \/ (let dy := np_diff seg in
      sign_changes (if (3 <=? length dy)%nat then smooth_signal dy 3 else dy)
      <= Nat.max 8 (length seg / 3))%nat.

Definition key_eq (k k' : Q * Q) : bool :=
  Qeq_bool (fst k) (fst k') && Qeq_bool (snd k) (snd k').

(* ------------------------------------------------------------------ *)
(** ** Object state across calls

    Neither [RepDetector.detect_reps] nor [ANTCalculator.calculate] assigns
    an attribute of [self] or touches global state: a call leaves the two
    objects as they were. *)

Record Session := mkSession {
  sess_detector : RepDetector;
  sess_calculator : ANTCalculator
}.

Inductive Call :=
| CallDetectReps (samples : list PositionSample)
| CallCalculate (reps : list DetectedRep).

Inductive Output :=
| OutReps (reps : list DetectedRep)
| OutANT (res : option ANTResult).

Definition step (s : Session) (c : Call) : Output * Session :=
  match c with
  | CallDetectReps samples => (OutReps (detect_reps (sess_detector s) samples), s)
  | CallCalculate reps => (OutANT (calculate (sess_calculator s) reps), s)
  end.

Fixpoint run (s : Session) (calls : list Call) : list Output * Session :=
  match calls with
  | [] => ([], s)
  | c :: cs =>
      let '(o, s') := step s c in
      let '(os, s'') := run s' cs in
      (o :: os, s'')
  end.

(** The pure value of a call: the method applied to its own input and the
    configuration. *)
Definition call_value (s : Session) (c : Call) : Output :=
  match c with
  | CallDetectReps samples => OutReps (detect_reps (sess_detector s) samples)
  | CallCalculate reps => OutANT (calculate (sess_calculator s) reps)
  end.

(* ------------------------------------------------------------------ *)
(** ** Decision procedures for the input conditions used in statements *)

(** Timestamps strictly increasing along the sequence. *)
Fixpoint strictly_increasing_t (l : list PositionSample) : bool :=
  match l with
  | [] => true
  | a :: rest => forallb (fun b => Qltb (t a) (t b)) rest && strictly_increasing_t rest
  end.

(** Every pair of timestamps is at most [buf] apart. *)
Definition span_within (buf : Q) (l : list PositionSample) : bool :=
  forallb (fun s1 => forallb (fun s2 => Qleb (t s2 - t s1) buf) l) l.

(* ------------------------------------------------------------------ *)
(** ** Concrete inputs *)

Definition ex_rep (t0 s : Q) : DetectedRep := mkRep 0 1 t0 (t0 + 1) 1 s (1 # 2) true.

(** Five reps at speed 1.0 followed by three at 0.5. *)
Definition drop_reps : list DetectedRep :=
  map (fun '(t0, s) => ex_rep t0 s)
      [(0, 1); (1, 1); (2, 1); (3, 1); (4, 1); (5, 1 # 2); (6, 1 # 2); (7, 1 # 2)].

Definition drop_calculator : ANTCalculator := mkANTCalculator 5 (1 # 5) 1 2.

Definition drop_result : ANTResult :=
  mkANTResult true (Some 5%Z) (Some 5) (5 # 5) (Some (25 # 50))
    [1; 1; 1; 1; 1; 1 # 2; 1 # 2; 1 # 2]
    [false; false; false; false; false; true; true; true].

(** Six valid reps and one invalid one. *)
Definition six_valid_reps : list DetectedRep :=
  map (fun '(t0, s) => ex_rep t0 s) [(0, 1); (1, 1); (2, 1); (3, 1); (4, 1); (5, 1)]
  ++ [mkRep 0 1 6 7 1 1 (1 # 2) false].

Definition default_calculator : ANTCalculator := mkANTCalculator 5 (1 # 5) 3 2.

(** Four valid reps, fewer than a smoothing window of 5. *)
Definition short_reps : list DetectedRep :=
  map (fun '(t0, s) => ex_rep t0 s) [(0, 1); (1, 2); (2, 3); (3, 4)].

Definition wide_window_calculator : ANTCalculator := mkANTCalculator 3 (1 # 5) 5 1.

Definition short_result : ANTResult :=
  mkANTResult true (Some 0%Z) (Some 0) (6 # 3) (Some (9 # 18))
    [1; 2; 3; 4] [true; false; false; false].

(** A wrist trace sampled once per second: highest points (lowest [y])
    at samples 3, 9 and 13, the last two closer than 5 samples apart. *)
Definition ysig : list Q := [5; 5; 2; 0; 2; 5; 5; 5; 2; 1; 2; 4; 1; 0; 1; 5; 5].

Definition ex_samples : list PositionSample :=
  map (fun '(i, yv) => mkSample (inject_Z (Z.of_nat i)) 0 yv 1)
      (combine (seq 0 (length ysig)) ysig).

Definition swing_detector : RepDetector := RepDetector_init SWING_LEFT (1 # 2).

Definition ex_first_rep : DetectedRep := hd (ex_rep 0 0) (detect_reps swing_detector ex_samples).

Definition ex_session : Session := mkSession swing_detector default_calculator.

(* ------------------------------------------------------------------ *)
(** ** [ant_calculator.py]: [StreamingANTCalculator] *)

Record StreamingANTCalculator := mkStreamingANT {
  calculator : ANTCalculator;
  ant_reps : list DetectedRep;          (* [self.reps] *)
  last_result : option ANTResult        (* [self._last_result] *)
}.

(** [StreamingANTCalculator.__init__]: the [ANTCalculator] constructor's
    [ValueError] propagates. *)
Definition StreamingANTCalculator_init (baseline_reps : Z) (drop_threshold : Q)
    (smoothing_window sustain_count : Z) : ValueError + StreamingANTCalculator :=
  match ANTCalculator_init baseline_reps drop_threshold smoothing_window sustain_count with
  | inl e => inl e
  | inr c => inr (mkStreamingANT c [] None)
  end.

(** [self._last_result = self.calculator.calculate(self.reps)] after
    [self.reps] was extended to [reps].  A [None] result is the
    [IndexError] of [calculate], raised after the extension and before
    the assignment. *)
Definition ant_recalculate (st : StreamingANTCalculator) (reps : list DetectedRep)
  : option ANTResult * StreamingANTCalculator :=
  match calculate (calculator st) reps with
  | Some res => (Some res, mkStreamingANT (calculator st) reps (Some res))
  | None => (None, mkStreamingANT (calculator st) reps (last_result st))
  end.

(** [StreamingANTCalculator.add_rep]. *)
Definition add_rep (st : StreamingANTCalculator) (rep : DetectedRep)
  : option ANTResult * StreamingANTCalculator :=
  ant_recalculate st (ant_reps st ++ [rep]).

(** [StreamingANTCalculator.add_reps]. *)
Definition add_reps (st : StreamingANTCalculator) (reps : list DetectedRep)
  : option ANTResult * StreamingANTCalculator :=
  ant_recalculate st (ant_reps st ++ reps).

(** [StreamingANTCalculator.get_current_result]. *)
Definition get_current_result (st : StreamingANTCalculator) : option ANTResult :=
  last_result st.

(** [StreamingANTCalculator.reset]. *)
Definition StreamingANTCalculator_reset (st : StreamingANTCalculator) : StreamingANTCalculator :=
  mkStreamingANT (calculator st) [] None.

(** A sequence of method calls on one [StreamingANTCalculator]; the
    results of [add_rep] and [add_reps] are collected in order. *)
Inductive ANTOp :=
| OpAddRep (rep : DetectedRep)
| OpAddReps (reps : list DetectedRep)
| OpReset.

Fixpoint ant_run (st : StreamingANTCalculator) (ops : list ANTOp)
  : list (option ANTResult) * StreamingANTCalculator :=
  match ops with
  | [] => ([], st)
  | OpAddRep r :: rest =>
      let '(o, st1) := add_rep st r in
      let '(os, st2) := ant_run st1 rest in (o :: os, st2)
  | OpAddReps l :: rest =>
      let '(o, st1) := add_reps st l in
      let '(os, st2) := ant_run st1 rest in (o :: os, st2)
  | OpReset :: rest => ant_run (StreamingANTCalculator_reset st) rest
  end.

(** The calls made after the last [reset], in order. *)
Definition ops_since_reset (ops : list ANTOp) : list ANTOp :=
  fold_left (fun acc op => match op with OpReset => [] | _ => acc ++ [op] end) ops [].

(** The reps those calls hand in, in order. *)
Definition op_reps (op : ANTOp) : list DetectedRep :=
  match op with
  | OpAddRep r => [r]
  | OpAddReps l => l
  | OpReset => []
  end.

(* ------------------------------------------------------------------ *)
(** ** [rep_detector.py]: [StreamingRepDetector.reset] *)

Definition StreamingRepDetector_reset (st : StreamingRepDetector) : StreamingRepDetector :=
  mkStreaming (detector st) (buffer_seconds st) [] [] 0.

(* ------------------------------------------------------------------ *)
(** ** [models/schemas.py]: result models *)

Module Schemas.

Record RepMetric := mkRepMetric {
  rep_index : Z;
  start_time : Q;
  end_time : Q;
  duration : Q;
  peak_speed : Q;
  is_valid : bool;
  is_below_threshold : bool
}.

Record AnalysisDiagnostics := mkAnalysisDiagnostics {
  fps_used : Q;
  frames_sampled : Z;
  invalid_reps_filtered : Z;
  baseline_reps_used : Z
}.

Record AnalysisResult := mkAnalysisResult {
  movement_type : MovementType;
  total_valid_reps : Z;
  video_duration_seconds : Q;
  baseline_speed : Q;
  ant_reached : bool;
  ant_rep_index : option Z;
  ant_timestamp_seconds : option Q;
  drop_percent_at_ant : option Q;
  rep_metrics : list RepMetric;
  diagnostics : AnalysisDiagnostics
}.

End Schemas.

(** Exceptions raised along the video pipeline. *)
Inductive PipelineError :=
| PipelineValueError (msg : string)
| PipelineFileNotFoundError (msg : string)
| PipelineIndexError
| PipelineZeroDivisionError.

(* ------------------------------------------------------------------ *)
(** ** [services/pose_estimator.py] *)

(** [FramePose]: wrist positions are [(x, y)] tuples or [None]. *)
Record FramePose := mkFramePose {
  timestamp : Q;
  left_wrist : option (Q * Q);
  right_wrist : option (Q * Q);
  left_wrist_confidence : Q;
  right_wrist_confidence : Q;
  frame_valid : bool
}.

(** A MediaPipe pose landmark (the fields the code reads). *)
Record Landmark := mkLandmark {
  lm_x : Q;
  lm_y : Q;
  visibility : Q
}.

Definition LEFT_WRIST_IDX : nat := 15.
Definition RIGHT_WRIST_IDX : nat := 16.
Definition MIN_VISIBILITY : Q := 1 # 2.

(** [PoseEstimator.process_frame], from what [self.pose.process] returned
    for the frame: [None] when no pose was found, else the landmark list.
    A [None] result is the [IndexError] of a list shorter than 17. *)
Definition process_frame (pose_landmarks : option (list Landmark)) (timestamp : Q)
  : option FramePose :=
  match pose_landmarks with
  | None => Some (mkFramePose timestamp None None 0 0 false)
  | Some landmarks =>
      match nth_error landmarks LEFT_WRIST_IDX, nth_error landmarks RIGHT_WRIST_IDX with
      | Some left_wrist_lm, Some right_wrist_lm =>
          let left_valid := Qleb MIN_VISIBILITY (visibility left_wrist_lm) in
          let right_valid := Qleb MIN_VISIBILITY (visibility right_wrist_lm) in
          Some (mkFramePose timestamp
                  (if left_valid then Some (lm_x left_wrist_lm, lm_y left_wrist_lm) else None)
                  (if right_valid then Some (lm_x right_wrist_lm, lm_y right_wrist_lm) else None)
                  (visibility left_wrist_lm) (visibility right_wrist_lm)
                  (left_valid || right_valid))
      | _, _ => None
      end
  end.

(** Python's [int(q)] on a float: truncation towards zero. *)
Definition py_int (q : Q) : Z :=
  if Qle_bool 0 q then Qfloor q else (- Qfloor (- q))%Z.

Section VideoPipeline.

(** The frames [cap.read()] returns, and MediaPipe's tracker: its state
    is threaded from one processed frame to the next. *)
Context {Frame MPState : Type}.
Variable mp_process : MPState -> Frame -> MPState * option (list Landmark).

(** The [while True] loop of [PoseEstimator.process_video]: the poses the
    generator yields, and the exception that ends it early, if any. *)
Fixpoint process_video_loop (st : MPState) (native_fps : Q) (frame_skip : Z)
    (frames : list Frame) (frame_idx : nat) : list FramePose * option PipelineError :=
  match frames with
  | [] => ([], None)
  | frame :: rest =>
      if (frame_skip =? 0)%Z then ([], Some PipelineZeroDivisionError)
      else if negb (Z.of_nat frame_idx mod frame_skip =? 0)%Z
      then process_video_loop st native_fps frame_skip rest (S frame_idx)
      else if Qeq_bool native_fps 0 then ([], Some PipelineZeroDivisionError)
      else
        let timestamp := inject_Z (Z.of_nat frame_idx) / native_fps in
        let '(st1, pose_landmarks) := mp_process st frame in
        match process_frame pose_landmarks timestamp with
        | None => ([], Some PipelineIndexError)
        | Some pose =>
            let '(poses, err) := process_video_loop st1 native_fps frame_skip rest (S frame_idx) in
            (pose :: poses, err)
        end
  end.

(** [PoseEstimator.process_video]; [target_fps] is [None] or a float
    (a float [0.0] is falsy). *)
Definition process_video (st : MPState) (video_path : string) (is_opened : bool)
    (native_fps : Q) (target_fps : option Q) (frames : list Frame)
  : list FramePose * option PipelineError :=
  if negb is_opened
  then ([], Some (PipelineValueError (String.append "Could not open video: " video_path)))
  else
    let frame_skip :=
      match target_fps with
      | Some tf => if negb (Qeq_bool tf 0) && Qltb tf native_fps then py_int (native_fps / tf) else 1%Z
      | None => 1%Z
      end in
    process_video_loop st native_fps frame_skip frames 0.

End VideoPipeline.

(* ------------------------------------------------------------------ *)
(** ** [services/video_processor.py] *)

Record VideoProcessor := mkVideoProcessor {
  has_progress_callback : bool          (* [self.progress_callback] is set *)
}.

Definition TARGET_FPS : Q := 15.
Definition BASELINE_REPS : Z := 5.
Definition DROP_THRESHOLD : Q := 1 # 5.
Definition SMOOTHING_WINDOW : Z := 3.
Definition SUSTAIN_COUNT : Z := 2.

(** The message handed to the progress callback. *)
Inductive ProgressMessage :=
| PMText (s : string)
| PMProcessingFrame (frame_idx : nat).      (* [f"Processing frame {frame_idx}..."] *)

(** [VideoProcessor._report_progress]: the callback calls it makes. *)
Definition report_progress (vp : VideoProcessor) (progress : Q) (message : ProgressMessage)
  : list (Q * ProgressMessage) :=
  if has_progress_callback vp then [(progress, message)] else [].

Definition use_left_of (mt : MovementType) : bool :=
  match mt with SNATCH_LEFT | SWING_LEFT => true | _ => false end.

Definition use_right_of (mt : MovementType) : bool :=
  match mt with SNATCH_RIGHT | SWING_RIGHT => true | _ => false end.

Definition use_both_of (mt : MovementType) : bool :=
  match mt with TWO_ARM_SWING => true | _ => false end.

(** [VideoProcessor._pose_to_sample]. *)
Definition pose_to_sample (pose : FramePose) (use_left use_right use_both : bool)
  : option PositionSample :=
  if negb (frame_valid pose) then None
  else if use_both then
    match left_wrist pose, right_wrist pose with
    | Some (lx, ly), Some (rx, ry) =>
        Some (mkSample (timestamp pose) ((lx + rx) / 2) ((ly + ry) / 2)
                ((left_wrist_confidence pose + right_wrist_confidence pose) / 2))
    | Some (lx, ly), None => Some (mkSample (timestamp pose) lx ly (left_wrist_confidence pose))
    | None, Some (rx, ry) => Some (mkSample (timestamp pose) rx ry (right_wrist_confidence pose))
    | None, None => None
    end
  else
    match use_left, left_wrist pose with
    | true, Some (lx, ly) => Some (mkSample (timestamp pose) lx ly (left_wrist_confidence pose))
    | _, _ =>
        match use_right, right_wrist pose with
        | true, Some (rx, ry) => Some (mkSample (timestamp pose) rx ry (right_wrist_confidence pose))
        | _, _ => None
        end
    end.

(** The [for pose in ...] loop of [VideoProcessor._extract_positions]:
    the progress reports and the samples collected. *)
Fixpoint extract_loop (vp : VideoProcessor) (use_left use_right use_both : bool)
    (total_frames : Z) (poses : list FramePose) (frame_idx : nat)
  : list (Q * ProgressMessage) * list PositionSample :=
  match poses with
  | [] => ([], [])
  | pose :: rest =>
      let events :=
        if (0 <? total_frames)%Z then
          let progress := (7 # 10) * (inject_Z (Z.of_nat frame_idx)
                                      / (inject_Z total_frames / (30 / TARGET_FPS))) in
          let progress := Qmin (7 # 10) progress in
          report_progress vp progress (PMProcessingFrame frame_idx)
        else [] in
      let sample := pose_to_sample pose use_left use_right use_both in
      let '(evs, samples) := extract_loop vp use_left use_right use_both total_frames rest (S frame_idx) in
      (events ++ evs, match sample with Some s => s :: samples | None => samples end)
  end.

(** [VideoProcessor._extract_positions], over what
    [estimator.process_video(video_path, TARGET_FPS)] yields before it
    returns or raises. *)
Definition extract_positions (vp : VideoProcessor) (mt : MovementType) (total_frames : Z)
    (yielded : list FramePose * option PipelineError)
  : list (Q * ProgressMessage) * (PipelineError + list PositionSample) :=
  let '(events, samples) :=
    extract_loop vp (use_left_of mt) (use_right_of mt) (use_both_of mt) total_frames (fst yielded) 0 in
  match snd yielded with
  | Some e => (events, inl e)
  | None => (events, inr samples)
  end.

(** [VideoProcessor._build_rep_metrics]. *)
Definition build_rep_metrics (valid_reps : list DetectedRep) (ant_result : ANTResult)
  : list Schemas.RepMetric :=
  let flags := threshold_flags ant_result in
  map (fun '(i, rep) =>
         let is_below := if (i <? length flags)%nat then nth i flags false else false in
         Schemas.mkRepMetric (Z.of_nat i) (start_time rep) (end_time rep) (duration rep)
           (peak_speed rep) true is_below)
      (combine (seq 0 (length valid_reps)) valid_reps).

(** [VideoProcessor.analyze], from the state of the file system and of
    OpenCV ([os.path.exists], [cap.isOpened()], [CAP_PROP_FPS],
    [CAP_PROP_FRAME_COUNT], the frames) and MediaPipe's initial tracker
    state: the progress reports and the result or exception. *)
Definition analyze {Frame MPState : Type}
    (mp_process : MPState -> Frame -> MPState * option (list Landmark)) (mp_state : MPState)
    (vp : VideoProcessor) (video_path : string) (path_exists is_opened : bool)
    (fps : Q) (frame_count : Z) (frames : list Frame) (mt : MovementType)
  : list (Q * ProgressMessage) * (PipelineError + Schemas.AnalysisResult) :=
  if negb path_exists
  then ([], inl (PipelineFileNotFoundError (String.append "Video not found: " video_path)))
  else if negb is_opened
  then ([], inl (PipelineValueError (String.append "Could not open video: " video_path)))
  else
    let duration := if Qltb 0 fps then inject_Z frame_count / fps else 0 in
    if Qltb duration 5
    then ([], inl (PipelineValueError "Video too short. Need at least 5 seconds."))
    else
      let ev0 := report_progress vp 0 (PMText "Starting pose estimation...") in
      let yielded := process_video mp_process mp_state video_path is_opened fps (Some TARGET_FPS) frames in
      match extract_positions vp mt frame_count yielded with
      | (ev1, inl e) => (ev0 ++ ev1, inl e)
      | (ev1, inr samples) =>
          let ev2 := report_progress vp (7 # 10) (PMText "Detecting repetitions...") in
          let detector := RepDetector_init mt (1 # 2) in
          let detected_reps := detect_reps detector samples in
          let ev3 := report_progress vp (85 # 100) (PMText "Calculating anaerobic threshold...") in
          match ANTCalculator_init BASELINE_REPS DROP_THRESHOLD SMOOTHING_WINDOW SUSTAIN_COUNT with
          | inl (mkValueError m) => (ev0 ++ ev1 ++ ev2 ++ ev3, inl (PipelineValueError m))
          | inr calculator =>
              match calculate calculator detected_reps with
              | None => (ev0 ++ ev1 ++ ev2 ++ ev3, inl PipelineIndexError)
              | Some ant_result =>
                  let ev4 := report_progress vp (95 # 100) (PMText "Generating results...") in
                  let valid_reps := filter is_valid detected_reps in
                  let invalid_count :=
                    (Z.of_nat (length detected_reps) - Z.of_nat (length valid_reps))%Z in
                  let rep_metrics := build_rep_metrics valid_reps ant_result in
                  let result :=
                    Schemas.mkAnalysisResult mt (Z.of_nat (length valid_reps)) duration
                      (baseline_speed ant_result) (ant_reached ant_result)
                      (ant_rep_index ant_result) (ant_timestamp_seconds ant_result)
                      (drop_percent_at_ant ant_result) rep_metrics
                      (Schemas.mkAnalysisDiagnostics TARGET_FPS (Z.of_nat (length samples))
                         invalid_count (Z.min BASELINE_REPS (Z.of_nat (length valid_reps)))) in
                  let ev5 := report_progress vp 1 (PMText "Analysis complete.") in
                  (ev0 ++ ev1 ++ ev2 ++ ev3 ++ ev4 ++ ev5, inr result)
              end
          end
      end.

(** [analyze_position_stream] (the calculator's other two parameters keep
    their defaults, 3 and 2). *)
Definition analyze_position_stream (samples : list PositionSample) (mt : MovementType)
    (baseline_reps : Z) (drop_threshold : Q) : PipelineError + (list DetectedRep * ANTResult) :=
  let detector := RepDetector_init mt (1 # 2) in
  let detected_reps := detect_reps detector samples in
  match ANTCalculator_init baseline_reps drop_threshold 3 2 with
  | inl (mkValueError m) => inl (PipelineValueError m)
  | inr calculator =>
      match calculate calculator detected_reps with
      | Some ant_result => inr (detected_reps, ant_result)
      | None => inl PipelineIndexError
      end
  end.

(* ------------------------------------------------------------------ *)
(** ** Example inputs for the pipeline *)

(** A MediaPipe tracker that finds all 33 landmarks of a pose in every
    frame, at full visibility. *)
Definition ex_landmarks : list Landmark := repeat (mkLandmark (1 # 2) (1 # 2) 1) 33.

Definition ex_mp (st : unit) (frame : unit) : unit * option (list Landmark) :=
  (tt, Some ex_landmarks).

(** A 5 s clip: 150 frames at 30 fps. *)
Definition ex_frames : list unit := repeat tt 150.

(** A valid frame where only the left wrist was seen. *)
Definition ex_pose : FramePose := mkFramePose 0 (Some (1 # 2, 1 # 2)) None 1 0 true.

(* ================================================================== *)
(** * Proofs *)

Lemma Qltb_iff (a b : Q) : Qltb a b = true <-> a < b.
Proof.
  unfold Qltb. rewrite negb_true_iff.
  split; intro H.
  - apply Qnot_le_lt. intro H'. apply Qle_bool_iff in H'. congruence.
  - destruct (Qle_bool b a) eqn:E; [|reflexivity].
    apply Qle_bool_iff in E. exfalso. apply (Qlt_not_le a b); assumption.
Qed.

Lemma Qleb_iff (a b : Q) : Qleb a b = true <-> a <= b.
Proof. apply Qle_bool_iff. Qed.

Section SustainedDrop.

Variable L : list bool.
Variable k : nat.
Hypothesis Hk : (1 <= k)%nat.

Lemma fsd_loop_outcome : forall l pre c,
  L = pre ++ l -> fsd_inv L k (length pre) c ->
  fsd_outcome L k (find_sustained_drop_loop l (Z.of_nat (length pre)) (Z.of_nat c) (Z.of_nat k)).
Proof.
  induction l as [|b l IH]; intros pre c HL Hinv;
    destruct Hinv as (Hci & Hck & Htrail & Hbound & Hnone).
  - right. split; [reflexivity|]. intros j Hw.
    destruct (Nat.le_gt_cases (j + k) (length pre)) as [Hle|Hgt].
    + exact (Hnone j Hle Hw).
    + specialize (Hw (k - 1)%nat ltac:(lia)).
      assert (Hlen : length L = length pre) by (rewrite HL, app_nil_r; reflexivity).
      assert (nth_error L (j + (k - 1)) = None) by (apply nth_error_None; lia).
      congruence.
  - assert (Hb : nth_error L (length pre) = Some b).
    { rewrite HL, nth_error_app2 by lia. rewrite Nat.sub_diag. reflexivity. }
    assert (HL' : L = (pre ++ [b]) ++ l) by (rewrite HL, <- app_assoc; reflexivity).
    assert (Hlen' : length (pre ++ [b]) = S (length pre)) by (rewrite length_app; simpl; lia).
    simpl. destruct b.
    + destruct (Z.of_nat k <=? Z.of_nat c + 1)%Z eqn:Ek.
      * apply Z.leb_le in Ek. assert (Hkc : k = S c) by lia.
        left. exists (length pre - c)%nat. split.
        { f_equal. lia. }
        split; [|split].
        -- intros m Hm. destruct (Nat.eq_dec m c) as [->|Hmc].
           ++ replace (length pre - c + c)%nat with (length pre) by lia. exact Hb.
           ++ replace (length pre - c + m)%nat with (length pre - 1 - (c - 1 - m))%nat by lia.
              apply Htrail. lia.
        -- destruct Hbound as [Heq|Hf]; [left; lia|right].
           replace (length pre - c - 1)%nat with (length pre - 1 - c)%nat by lia. exact Hf.
        -- intros j' Hj'. apply Hnone. lia.
      * apply Z.leb_gt in Ek.
        replace (Z.of_nat (length pre) + 1)%Z with (Z.of_nat (length (pre ++ [true]))) by lia.
        replace (Z.of_nat c + 1)%Z with (Z.of_nat (S c)) by lia.
        apply IH; [exact HL'|]. rewrite Hlen'.
        split; [lia|]. split; [lia|]. split; [|split].
        -- intros m Hm. destruct m as [|m].
           ++ replace (S (length pre) - 1 - 0)%nat with (length pre) by lia. exact Hb.
           ++ replace (S (length pre) - 1 - S m)%nat with (length pre - 1 - m)%nat by lia.
              apply Htrail. lia.
        -- destruct Hbound as [Heq|Hf]; [left; lia|right].
           replace (S (length pre) - 1 - S c)%nat with (length pre - 1 - c)%nat by lia. exact Hf.
        -- intros j Hj Hw. destruct (Nat.le_gt_cases (j + k) (length pre)) as [Hle|Hgt].
           ++ exact (Hnone j Hle Hw).
           ++ destruct Hbound as [Heq|Hf]; [lia|].
              specialize (Hw (length pre - 1 - c - j)%nat ltac:(lia)).
              replace (j + (length pre - 1 - c - j))%nat with (length pre - 1 - c)%nat in Hw by lia.
              congruence.
    + replace (Z.of_nat (length pre) + 1)%Z with (Z.of_nat (length (pre ++ [false]))) by lia.
      change 0%Z with (Z.of_nat 0).
      apply IH; [exact HL'|]. rewrite Hlen'.
      split; [lia|]. split; [lia|]. split; [|split].
      * intros m Hm. lia.
      * right. replace (S (length pre) - 1 - 0)%nat with (length pre) by lia. exact Hb.
      * intros j Hj Hw. destruct (Nat.le_gt_cases (j + k) (length pre)) as [Hle|Hgt].
        -- exact (Hnone j Hle Hw).
        -- specialize (Hw (length pre - j)%nat ltac:(lia)).
           replace (j + (length pre - j))%nat with (length pre) in Hw by lia.
           congruence.
Qed.

Lemma find_sustained_drop_outcome :
  fsd_outcome L k (find_sustained_drop L (Z.of_nat k)).
Proof.
  unfold find_sustained_drop.
  change 0%Z with (Z.of_nat (length (@nil bool))).
  replace (Z.of_nat (length (@nil bool))) with (Z.of_nat 0) at 2 by reflexivity.
  apply fsd_loop_outcome; [reflexivity|].
  simpl. split; [lia|]. split; [lia|]. split; [|split].
  - intros m Hm. lia.
  - left. reflexivity.
  - intros j Hj. lia.
Qed.

End SustainedDrop.

Lemma ant_smooth_length (d : list Q) (w : Z) : length (ant_smooth d w) = length d.
Proof.
  unfold ant_smooth. destruct (_ || _); [reflexivity|].
  rewrite length_map, length_seq. reflexivity.
Qed.

Lemma py_index_nat {A} (l : list A) (j : nat) : py_index l (Z.of_nat j) = nth_error l j.
Proof.
  unfold py_index. replace (0 <=? Z.of_nat j)%Z with true by (symmetry; apply Z.leb_le; lia).
  rewrite Nat2Z.id. reflexivity.
Qed.

Lemma window_true_lt (flags : list bool) (j k : nat) :
  (1 <= k)%nat -> window_true flags j k -> (j < length flags)%nat.
Proof.
  intros Hk Hw. specialize (Hw 0%nat ltac:(lia)). rewrite Nat.add_0_r in Hw.
  apply nth_error_Some. congruence.
Qed.

Lemma nth_error_lt_Some {A} (l : list A) (j : nat) :
  (j < length l)%nat -> exists a, nth_error l j = Some a.
Proof.
  intro H. destruct (nth_error l j) eqn:E; [eauto|].
  apply nth_error_None in E. lia.
Qed.

Lemma Qleb_false_of_pos (b : Q) : 0 < b -> Qleb b 0 = false.
Proof.
  intro H. destruct (Qleb b 0) eqn:E; [|reflexivity].
  apply Qleb_iff in E. exfalso. apply (Qlt_not_le 0 b); assumption.
Qed.

(** Outcome of [_find_sustained_drop] on the flags computed by [calculate]. *)
Lemma sustained_drop_outcome_Z (flags : list bool) (s : Z) :
  (1 <= s)%Z -> fsd_outcome flags (Z.to_nat s) (find_sustained_drop flags s).
Proof.
  intro Hs. pose proof (find_sustained_drop_outcome flags (Z.to_nat s) ltac:(lia)) as H.
  rewrite Z2Nat.id in H by lia. exact H.
Qed.

Lemma calculate_total (c : ANTCalculator) (reps : list DetectedRep) :
  valid_config c -> exists res, calculate c reps = Some res.
Proof.
  intros (HB & Hd0 & Hd1 & Hw & Hs). unfold calculate.
  destruct (_ <? _)%Z; [eauto|].
  destruct (Qleb _ 0); [eauto|].
  match goal with |- context [find_sustained_drop ?fl ?s] =>
    destruct (sustained_drop_outcome_Z fl s Hs) as [(j & -> & Hw1 & _)|(-> & _)] end;
    [|eauto].
  apply window_true_lt in Hw1; [|lia].
  rewrite length_map, ant_smooth_length, length_map in Hw1.
  rewrite !py_index_nat.
  destruct (nth_error_lt_Some (filter is_valid reps) j Hw1) as [r ->].
  destruct (nth_error_lt_Some (ant_smooth (map peak_speed (filter is_valid reps)) (smoothing_window c)) j)
    as [cur ->]; [rewrite ant_smooth_length, length_map; exact Hw1|].
  eauto.
Qed.

(** C1: past the gates, [ant_rep_index] is where the first run of at least
    [sustain_count] consecutive [True] threshold flags begins; the timestamp
    is that valid rep's [start_time] and the drop percentage is
    [(baseline - smoothed[j]) / baseline]; with no such run, [ant_reached] is
    false and the optional fields are unset. *)
Theorem ant_index_is_first_sustained_run (c : ANTCalculator) (reps : list DetectedRep)
  (Hc : valid_config c)
  (Henough : (baseline_reps c + sustain_count c <= Z.of_nat (length (filter is_valid reps)))%Z)
  (Hpos : 0 < baseline_of c reps) :
  exists res, calculate c reps = Some res
  /\ baseline_speed res = baseline_of c reps
  /\ smoothed_speeds res = ant_smooth (valid_speeds reps) (smoothing_window c)
  /\ threshold_flags res
     = map (fun s => Qltb s (baseline_speed res * (1 - drop_threshold c))) (smoothed_speeds res)
  /\ ((exists j r cur,
         ant_rep_index res = Some (Z.of_nat j)
         /\ first_run_at (threshold_flags res) (Z.to_nat (sustain_count c)) j
         /\ ant_reached res = true
         /\ nth_error (filter is_valid reps) j = Some r
         /\ nth_error (smoothed_speeds res) j = Some cur
         /\ ant_timestamp_seconds res = Some (start_time r)
         /\ drop_percent_at_ant res = Some ((baseline_speed res - cur) / baseline_speed res))
      \/ (ant_rep_index res = None
          /\ (forall j, ~ window_true (threshold_flags res) j (Z.to_nat (sustain_count c)))
          /\ ant_reached res = false
          /\ ant_timestamp_seconds res = None
          /\ drop_percent_at_ant res = None)).
Proof.
  destruct Hc as (HB & Hd0 & Hd1 & Hw & Hs).
  unfold calculate, baseline_of, valid_speeds in *.
  replace (Z.of_nat (length (filter is_valid reps)) <? baseline_reps c + sustain_count c)%Z
    with false by (symmetry; apply Z.ltb_ge; exact Henough).
  rewrite (Qleb_false_of_pos _ Hpos).
  match goal with |- context [find_sustained_drop ?fl ?s] =>
    destruct (sustained_drop_outcome_Z fl s Hs) as [(j & -> & Hfirst)|(-> & Hnone)] end.
  - pose proof Hfirst as (Hw1 & _).
    apply window_true_lt in Hw1; [|lia].
    rewrite length_map, ant_smooth_length, length_map in Hw1.
    rewrite !py_index_nat.
    destruct (nth_error_lt_Some (filter is_valid reps) j Hw1) as [r Hr].
    destruct (nth_error_lt_Some (ant_smooth (map peak_speed (filter is_valid reps)) (smoothing_window c)) j)
      as [cur Hcur]; [rewrite ant_smooth_length, length_map; exact Hw1|].
    rewrite Hr, Hcur.
    eexists. split; [reflexivity|]. simpl.
    repeat split; try reflexivity.
    left. exists j, r, cur.
    split; [reflexivity|]. split; [exact Hfirst|]. repeat split; assumption.
  - eexists. split; [reflexivity|]. simpl.
    repeat split; try reflexivity.
    right. split; [reflexivity|]. split; [exact Hnone|]. repeat split.
Qed.

Lemma calculate_smoothed_length (c : ANTCalculator) (reps : list DetectedRep) (res : ANTResult) :
  (baseline_reps c + sustain_count c <= Z.of_nat (length (filter is_valid reps)))%Z ->
  calculate c reps = Some res ->
  length (smoothed_speeds res) = length (filter is_valid reps).
Proof.
  intros Henough H. unfold calculate in H.
  replace (Z.of_nat (length (filter is_valid reps)) <? baseline_reps c + sustain_count c)%Z
    with false in H by (symmetry; apply Z.ltb_ge; exact Henough).
  destruct (Qleb _ 0).
  - injection H as <-. simpl. apply length_map.
  - destruct (find_sustained_drop _ _) as [j|].
    + destruct (py_index (filter is_valid reps) j); [|discriminate].
      destruct (py_index (ant_smooth (map peak_speed (filter is_valid reps))
                                     (smoothing_window c)) j); [|discriminate].
      injection H as <-. simpl. rewrite ant_smooth_length. apply length_map.
    + injection H as <-. simpl. rewrite ant_smooth_length. apply length_map.
Qed.

(** C2: [calculate] returns the insufficient-data result exactly when fewer
    than [baseline_reps + sustain_count] reps are valid. *)
Theorem calculate_insufficient_iff (c : ANTCalculator) (reps : list DetectedRep)
  (Hc : valid_config c) :
  exists res, calculate c reps = Some res
  /\ (is_insufficient_result res
      <-> (Z.of_nat (length (filter is_valid reps)) < baseline_reps c + sustain_count c)%Z).
Proof.
  destruct (calculate_total c reps Hc) as [res Hres].
  exists res. split; [exact Hres|]. split.
  - intros (_ & _ & Hsm & _).
    destruct (Z.lt_ge_cases (Z.of_nat (length (filter is_valid reps)))
                (baseline_reps c + sustain_count c)) as [Hlt|Hge]; [exact Hlt|].
    pose proof (calculate_smoothed_length c reps res Hge Hres) as Hlen.
    rewrite Hsm in Hlen. simpl in Hlen. destruct Hc as (HB & _ & _ & _ & Hs). lia.
  - intro Hlt. unfold calculate in Hres.
    replace (Z.of_nat (length (filter is_valid reps)) <? baseline_reps c + sustain_count c)%Z
      with true in Hres by (symmetry; apply Z.ltb_lt; exact Hlt).
    injection Hres as <-. unfold is_insufficient_result. simpl.
    repeat split; reflexivity.
Qed.

(** C10: whenever the ANT is reached, the baseline is positive, the index is
    a valid index into the valid reps, and the drop exceeds the threshold. *)
Theorem ant_reached_consistent (c : ANTCalculator) (reps : list DetectedRep) (res : ANTResult)
  (Hc : valid_config c) (Hcalc : calculate c reps = Some res) (Hreached : ant_reached res = true) :
  0 < baseline_speed res
  /\ exists j p, ant_rep_index res = Some (Z.of_nat j)
     /\ (j < length (filter is_valid reps))%nat
     /\ drop_percent_at_ant res = Some p
     /\ drop_threshold c < p.
Proof.
  destruct Hc as (HB & Hd0 & Hd1 & Hw & Hs).
  unfold calculate in Hcalc.
  destruct (_ <? _)%Z; [injection Hcalc as <-; discriminate|].
  destruct (Qleb _ 0) eqn:Eb; [injection Hcalc as <-; discriminate|].
  match type of Hcalc with context [find_sustained_drop ?fl ?s] =>
    destruct (sustained_drop_outcome_Z fl s Hs) as [(j & Hj & Hfirst)|(Hj & _)];
    rewrite Hj in Hcalc end; [|injection Hcalc as <-; discriminate].
  rewrite !py_index_nat in Hcalc.
  destruct (nth_error (filter is_valid reps) j) as [r|] eqn:Hr; [|discriminate].
  destruct (nth_error (ant_smooth _ _) j) as [cur|] eqn:Hcur; [|discriminate].
  injection Hcalc as <-. simpl.
  set (b := np_mean _) in *.
  assert (Hb : 0 < b).
  { apply Qnot_le_lt. intro Hle. apply Qleb_iff in Hle. congruence. }
  split; [exact Hb|].
  exists j, ((b - cur) / b). split; [reflexivity|]. split.
  { apply nth_error_Some. congruence. }
  split; [reflexivity|].
  destruct Hfirst as (Hw1 & _).
  specialize (Hw1 0%nat ltac:(lia)). rewrite Nat.add_0_r, nth_error_map, Hcur in Hw1.
  simpl in Hw1. injection Hw1 as Hlt. apply Qltb_iff in Hlt.
  apply Qlt_shift_div_l; [exact Hb|]. nra.
Qed.

Lemma map_nth_seq_shift (a : Q) (d : list Q) (lo m : nat) :
  map (fun k => nth k (a :: d) 0) (seq (S lo) m) = map (fun k => nth k d 0) (seq lo m).
Proof. rewrite <- seq_shift, map_map. reflexivity. Qed.

Lemma firstn_skipn_as_nth (data : list Q) : forall lo m,
  (lo + m <= length data)%nat ->
  firstn m (skipn lo data) = map (fun k => nth k data 0) (seq lo m).
Proof.
  induction data as [|a d IH]; intros lo m Hle.
  - simpl in Hle. assert (m = 0%nat) as -> by lia. rewrite firstn_O. reflexivity.
  - destruct lo as [|lo].
    + destruct m as [|m]; [reflexivity|].
      change (firstn (S m) (skipn 0 (a :: d))) with (a :: firstn m (skipn 0 d)).
      change (seq 0 (S m)) with (0 :: seq 1 m)%nat. rewrite map_cons. f_equal.
      rewrite map_nth_seq_shift. apply (IH 0%nat). simpl in Hle. lia.
    + change (skipn (S lo) (a :: d)) with (skipn lo d).
      rewrite map_nth_seq_shift. apply IH. simpl in Hle. lia.
Qed.

Lemma calculate_smoothed (c : ANTCalculator) (reps : list DetectedRep) (res : ANTResult) :
  (baseline_reps c + sustain_count c <= Z.of_nat (length (filter is_valid reps)))%Z ->
  0 < baseline_of c reps ->
  calculate c reps = Some res ->
  smoothed_speeds res = ant_smooth (valid_speeds reps) (smoothing_window c).
Proof.
  intros Henough Hpos H. unfold calculate, baseline_of, valid_speeds in *.
  replace (Z.of_nat (length (filter is_valid reps)) <? baseline_reps c + sustain_count c)%Z
    with false in H by (symmetry; apply Z.ltb_ge; exact Henough).
  rewrite (Qleb_false_of_pos _ Hpos) in H.
  destruct (find_sustained_drop _ _) as [j|].
  - destruct (py_index (filter is_valid reps) j); [|discriminate].
    destruct (py_index (ant_smooth (map peak_speed (filter is_valid reps))
                                   (smoothing_window c)) j); [|discriminate].
    injection H as <-. reflexivity.
  - injection H as <-. reflexivity.
Qed.

(** C5 (as amended): past the gates, when there are at least [w] valid reps
    every smoothed speed is the trimmed centred average of the raw speeds;
    with fewer than [w] valid reps the raw speeds are returned unchanged. *)
Theorem smoothed_speeds_trimmed_average (c : ANTCalculator) (reps : list DetectedRep)
  (res : ANTResult)
  (Hc : valid_config c)
  (Henough : (baseline_reps c + sustain_count c <= Z.of_nat (length (filter is_valid reps)))%Z)
  (Hpos : 0 < baseline_of c reps)
  (Hcalc : calculate c reps = Some res) :
  ((Z.of_nat (length (valid_speeds reps)) < smoothing_window c)%Z ->
   smoothed_speeds res = valid_speeds reps)
  /\ ((smoothing_window c <= Z.of_nat (length (valid_speeds reps)))%Z ->
      forall i, (i < length (valid_speeds reps))%nat ->
      exists s, nth_error (smoothed_speeds res) i = Some s
                /\ s == trimmed_mean (valid_speeds reps) (smoothing_window c) i).
Proof.
  destruct Hc as (HB & Hd0 & Hd1 & Hw & Hs).
  rewrite (calculate_smoothed c reps res Henough Hpos Hcalc).
  set (d := valid_speeds reps). set (w := smoothing_window c).
  split.
  - intro Hlt. unfold ant_smooth.
    replace (Z.of_nat (length d) <? w)%Z with true by (symmetry; apply Z.ltb_lt; exact Hlt).
    rewrite orb_true_r. reflexivity.
  - intros Hge i Hi. unfold ant_smooth, trimmed_mean.
    replace (Z.of_nat (length d) <? w)%Z with false by (symmetry; apply Z.ltb_ge; exact Hge).
    rewrite orb_false_r.
    destruct (w <=? 1)%Z eqn:Ew.
    + apply Z.leb_le in Ew. assert (Hw1 : w = 1%Z) by lia. rewrite Hw1.
      destruct (nth_error_lt_Some d i Hi) as [s Hsi]. exists s. split; [exact Hsi|].
      replace (1 / 2)%Z with 0%Z by reflexivity.
      replace (Z.max 0 (Z.of_nat i - 0)) with (Z.of_nat i) by lia.
      replace (Z.min (Z.of_nat (length d)) (Z.of_nat i + 0 + 1) - Z.of_nat i)%Z with 1%Z by lia.
      rewrite Nat2Z.id. simpl.
      rewrite (nth_error_nth d i 0 Hsi).
      unfold Qdiv. rewrite Qplus_0_r. change (inject_Z 1) with 1. rewrite Qmult_1_r.
      reflexivity.
    + rewrite nth_error_map, nth_error_seq.
      simpl. replace (i <? length d)%nat with true by (symmetry; apply Nat.ltb_lt; lia).
      eexists. split; [reflexivity|].
      set (h := (w / 2)%Z).
      assert (Hh : (0 <= h)%Z) by (apply Z.div_pos; lia).
      set (lo := Z.max 0 (Z.of_nat i - h)). set (hi := Z.min (Z.of_nat (length d)) (Z.of_nat i + h + 1)).
      assert (Hlo : (0 <= lo <= Z.of_nat i)%Z) by lia.
      assert (Hhi : (Z.of_nat i < hi <= Z.of_nat (length d))%Z) by lia.
      unfold np_mean, py_slice.
      rewrite firstn_skipn_as_nth by lia.
      rewrite length_map, length_seq.
      replace (Z.to_nat hi - Z.to_nat lo)%nat with (Z.to_nat (hi - lo)) by lia.
      rewrite Z2Nat.id by lia.
      reflexivity.
Qed.

(** C8: construction fails exactly when one of the four guards is violated;
    otherwise it stores the configuration, and [calculate] then never raises
    for any input. *)
Theorem ANTCalculator_init_spec (B : Z) (d : Q) (w S : Z) :
  ((exists e, ANTCalculator_init B d w S = inl e)
   <-> ~ ((3 <= B)%Z /\ 0 < d /\ d < 1 /\ (1 <= w)%Z /\ (1 <= S)%Z))
  /\ forall c, ANTCalculator_init B d w S = inr c ->
     c = mkANTCalculator B d w S /\ forall reps, exists res, calculate c reps = Some res.
Proof.
  assert (Hiff : (exists e, ANTCalculator_init B d w S = inl e)
                 <-> ~ ((3 <= B)%Z /\ 0 < d /\ d < 1 /\ (1 <= w)%Z /\ (1 <= S)%Z)).
  { unfold ANTCalculator_init.
    destruct (B <? 3)%Z eqn:EB.
    { apply Z.ltb_lt in EB. split; [intros _ (H & _); lia|eauto]. }
    apply Z.ltb_ge in EB.
    destruct (Qltb 0 d) eqn:E0; destruct (Qltb d 1) eqn:E1; simpl.
    2-4: split; [intros _ (_ & H0 & H1 & _)|eauto];
         apply Qltb_iff in H0; apply Qltb_iff in H1; congruence.
    apply Qltb_iff in E0. apply Qltb_iff in E1.
    destruct (w <? 1)%Z eqn:Ew.
    { apply Z.ltb_lt in Ew. split; [intros _ (_ & _ & _ & H & _); lia|eauto]. }
    apply Z.ltb_ge in Ew.
    destruct (S <? 1)%Z eqn:ES.
    { apply Z.ltb_lt in ES. split; [intros _ (_ & _ & _ & _ & H); lia|eauto]. }
    apply Z.ltb_ge in ES.
    split; [intros (e & He); discriminate|intro Hn; exfalso; apply Hn; auto]. }
  split; [exact Hiff|].
  intros c Hinit.
  unfold ANTCalculator_init in Hinit.
  destruct (B <? 3)%Z eqn:EB; [discriminate|]. apply Z.ltb_ge in EB.
  destruct (Qltb 0 d) eqn:E0; destruct (Qltb d 1) eqn:E1; simpl in Hinit; try discriminate.
  apply Qltb_iff in E0. apply Qltb_iff in E1.
  destruct (w <? 1)%Z eqn:Ew; [discriminate|]. apply Z.ltb_ge in Ew.
  destruct (S <? 1)%Z eqn:ES; [discriminate|]. apply Z.ltb_ge in ES.
  injection Hinit as <-.
  split; [reflexivity|].
  intro reps. apply calculate_total. unfold valid_config. simpl. auto.
Qed.

Lemma Qltb_false_iff (a b : Q) : Qltb a b = false <-> b <= a.
Proof. unfold Qltb. rewrite negb_false_iff. apply Qle_bool_iff. Qed.

Lemma smooth_signal_length (l : list Q) (w : nat) : length (smooth_signal l w) = length l.
Proof.
  unfold smooth_signal. destruct (_ || _) eqn:E; [reflexivity|].
  apply orb_false_iff in E as [E1 E2]. apply Nat.leb_gt in E1. apply Nat.ltb_ge in E2.
  rewrite length_map, length_seq, !length_app, !repeat_length.
  pose proof (Nat.div_mod_eq w 2). pose proof (Nat.mod_upper_bound w 2). lia.
Qed.

Lemma StronglySorted_app {A} (R : A -> A -> Prop) (l1 l2 : list A) :
  StronglySorted R l1 -> StronglySorted R l2 ->
  (forall a b, In a l1 -> In b l2 -> R a b) -> StronglySorted R (l1 ++ l2).
Proof.
  induction l1 as [|a l1 IH]; intros H1 H2 H; [exact H2|].
  apply StronglySorted_inv in H1 as [H1 Ha]. simpl. constructor.
  - apply IH; auto. intros x y Hx Hy. apply H; [right|]; auto.
  - apply Forall_app. split; [exact Ha|]. apply Forall_forall. intros y Hy. apply H; [left|]; auto.
Qed.

Lemma StronglySorted_rev_lt (l : list nat) :
  StronglySorted (fun a b => b < a)%nat l -> StronglySorted lt (rev l).
Proof.
  induction l as [|a l IH]; intro H; [constructor|].
  apply StronglySorted_inv in H as [H Ha]. simpl.
  apply StronglySorted_app; [auto|repeat constructor|].
  intros x y Hx [<-|[]]. rewrite <- in_rev in Hx.
  rewrite Forall_forall in Ha. apply Ha. exact Hx.
Qed.

Lemma StronglySorted_filter {A} (R : A -> A -> Prop) (f : A -> bool) (l : list A) :
  StronglySorted R l -> StronglySorted R (filter f l).
Proof.
  induction l as [|a l IH]; intro H; [constructor|].
  apply StronglySorted_inv in H as [H Ha]. simpl. destruct (f a); [|auto].
  constructor; [auto|]. rewrite Forall_forall in *. intros x Hx.
  apply filter_In in Hx as [Hx _]. auto.
Qed.

Lemma StronglySorted_nth_error {A} (R : A -> A -> Prop) (l : list A) :
  StronglySorted R l -> forall a b x z, (a < b)%nat ->
  nth_error l a = Some x -> nth_error l b = Some z -> R x z.
Proof.
  induction l as [|h l IH]; intros H a b x z Hab Ha Hb; [destruct a; discriminate|].
  apply StronglySorted_inv in H as [H Hh].
  destruct b as [|b]; [lia|]. destruct a as [|a].
  - simpl in Ha, Hb. injection Ha as <-. rewrite Forall_forall in Hh.
    apply Hh. eapply nth_error_In. exact Hb.
  - simpl in Ha, Hb. apply (IH H a b); auto. lia.
Qed.

(** Invariant of the [_find_peaks] loop: accepted peaks (newest first) are
    strictly decreasing, below the next candidate, and satisfy any property
    every candidate index has. *)
Lemma find_peaks_fold_inv (signal : list Q) (md : nat) (P : nat -> Prop) :
  forall m a acc,
  StronglySorted (fun x z => z < x)%nat acc ->
  Forall (fun p => p < a)%nat acc -> Forall P acc ->
  (forall i, (a <= i < a + m)%nat -> P i) ->
  StronglySorted (fun x z => z < x)%nat (fold_left (find_peaks_step signal md) (seq a m) acc)
  /\ Forall P (fold_left (find_peaks_step signal md) (seq a m) acc).
Proof.
  induction m as [|m IH]; intros a acc Hs Hlt HP Hcand; [simpl; auto|].
  simpl. apply IH.
  - unfold find_peaks_step. destruct (_ && _); [|exact Hs].
    destruct acc as [|p older]; [repeat constructor|].
    destruct (md <=? a - p)%nat; [constructor; assumption|].
    destruct (Qltb _ _); [|exact Hs].
    apply StronglySorted_inv in Hs as [Hs Hp]. constructor; [exact Hs|].
    rewrite Forall_forall in *. intros z Hz.
    assert (z < p)%nat by (apply Hp; exact Hz). assert (p < a)%nat by (apply Hlt; left; reflexivity). lia.
  - unfold find_peaks_step. destruct (_ && _).
    + destruct acc as [|p older]; [repeat constructor|].
      * destruct (md <=? a - p)%nat.
        -- constructor; [lia|]. eapply Forall_impl; [|exact Hlt]. simpl. intros; lia.
        -- destruct (Qltb _ _).
           ++ constructor; [lia|]. inversion Hlt; subst.
              eapply Forall_impl; [|eassumption]. simpl. intros; lia.
           ++ eapply Forall_impl; [|exact Hlt]. simpl. intros; lia.
    + eapply Forall_impl; [|exact Hlt]. simpl. intros; lia.
  - unfold find_peaks_step. destruct (_ && _); [|exact HP].
    destruct acc as [|p older]; [constructor; [apply Hcand; lia|constructor]|].
    destruct (md <=? a - p)%nat; [constructor; [apply Hcand; lia|exact HP]|].
    destruct (Qltb _ _); [|exact HP].
    inversion HP; subst. constructor; [apply Hcand; lia|assumption].
  - intros i Hi. apply Hcand. lia.
Qed.

(** The peaks returned by [_find_peaks] are strictly increasing interior
    indices of the signal. *)
Lemma find_peaks_sorted_bounded (signal : list Q) (md : nat) :
  StronglySorted lt (find_peaks signal md)
  /\ Forall (fun p => 1 <= p /\ p + 1 < length signal)%nat (find_peaks signal md).
Proof.
  unfold find_peaks.
  destruct (find_peaks_fold_inv signal md (fun p => 1 <= p /\ p + 1 < length signal)%nat
              (length signal - 2) 1 [] ltac:(constructor) ltac:(constructor) ltac:(constructor))
    as [Hs HP].
  { intros i Hi. lia. }
  split; [apply StronglySorted_rev_lt; exact Hs|apply Forall_rev; exact HP].
Qed.

Lemma segment_one_fields (rd : RepDetector) (times y_raw : list Q)
    (samples : list PositionSample) (p q : nat) (r : DetectedRep) :
  segment_one rd times y_raw samples p q = Some r ->
  start_idx r = p /\ end_idx r = q
  /\ start_time r = nth p times 0 /\ end_time r = nth q times 0
  /\ duration r = end_time r - start_time r
  /\ vertical_displacement r = np_max (py_slice y_raw p (q + 1)) - np_min (py_slice y_raw p (q + 1))
  /\ is_valid r = validate_rep rd (duration r) (vertical_displacement r) (py_slice y_raw p (q + 1)).
Proof.
  unfold segment_one. destruct (_ <? 2)%nat; [discriminate|].
  intro H. injection H as <-. simpl. repeat split.
Qed.

Lemma segment_one_some (rd : RepDetector) (times y_raw : list Q)
    (samples : list PositionSample) (p q : nat) :
  (p < q)%nat -> (q < length y_raw)%nat ->
  exists r, segment_one rd times y_raw samples p q = Some r.
Proof.
  intros Hpq Hq. unfold segment_one, py_slice.
  rewrite length_firstn, length_skipn.
  replace (Nat.min (q + 1 - p) (length y_raw - p) <? 2)%nat with false
    by (symmetry; apply Nat.ltb_ge; lia).
  eauto.
Qed.

Lemma in_segment_pairs (rd : RepDetector) (times y_raw : list Q)
    (samples : list PositionSample) (peaks : list nat) (r : DetectedRep) :
  In r (segment_pairs rd times y_raw samples peaks) ->
  exists p q, In p peaks /\ In q peaks /\ segment_one rd times y_raw samples p q = Some r.
Proof.
  induction peaks as [|p rest IH]; [intros []|].
  destruct rest as [|q rest']; [intros []|].
  simpl segment_pairs. intro Hin.
  destruct (segment_one rd times y_raw samples p q) eqn:E.
  - destruct Hin as [<-|Hin].
    + exists p, q. simpl. auto.
    + destruct (IH Hin) as (p' & q' & Hp & Hq & Hs). exists p', q'. simpl in *. tauto.
  - destruct (IH Hin) as (p' & q' & Hp & Hq & Hs). exists p', q'. simpl in *. tauto.
Qed.

(** With strictly increasing in-range peaks no pair is skipped, so the
    [i]-th rep spans the [i]-th and [i+1]-th peaks. *)
Lemma nth_segment_pairs (rd : RepDetector) (times y_raw : list Q)
    (samples : list PositionSample) (peaks : list nat) :
  StronglySorted lt peaks -> Forall (fun q => q < length y_raw)%nat peaks ->
  forall i r, nth_error (segment_pairs rd times y_raw samples peaks) i = Some r ->
  exists p q, nth_error peaks i = Some p /\ nth_error peaks (S i) = Some q
              /\ segment_one rd times y_raw samples p q = Some r.
Proof.
  induction peaks as [|p rest IH]; intros Hs Hb i r Hr; [destruct i; discriminate|].
  destruct rest as [|q rest']; [destruct i; discriminate|].
  apply StronglySorted_inv in Hs as [Hs Hp].
  inversion Hb as [|? ? Hpb Hb']; subst.
  inversion Hp as [|? ? Hpq _]; subst. inversion Hb' as [|? ? Hqb _]; subst.
  destruct (segment_one_some rd times y_raw samples p q Hpq Hqb) as [r0 E].
  simpl segment_pairs in Hr. rewrite E in Hr.
  destruct i as [|i].
  - simpl in Hr. injection Hr as <-. exists p, q. auto.
  - simpl in Hr. destruct (IH Hs Hb' i r Hr) as (p' & q' & H1 & H2 & H3).
    exists p', q'. auto.
Qed.

(** Past its early exits, [detect_reps] is the segmentation of the
    confidence-filtered samples between the peaks of the smoothed signal. *)
Lemma detect_reps_shape (rd : RepDetector) (samples : list PositionSample) :
  detect_reps rd samples = []
  \/ (let valid := filter (confident rd) samples in
      detect_reps rd samples
      = segment_pairs rd (map t valid) (map y valid) valid
          (find_peaks (map Qopp (smooth_signal (map y valid) VELOCITY_SMOOTHING_WINDOW))
                      MIN_SAMPLES_BETWEEN_PEAKS)).
Proof.
  unfold detect_reps, confident.
  destruct (_ <? _)%nat; [left; reflexivity|].
  destruct (_ <? _)%nat; [left; reflexivity|].
  destruct (_ && _); [left; reflexivity|].
  right. reflexivity.
Qed.

(** Peaks used by [detect_reps] are strictly increasing indices below the
    length of the filtered sample array. *)
Lemma detect_peaks_ok (valid : list PositionSample) :
  let peaks := find_peaks (map Qopp (smooth_signal (map y valid) VELOCITY_SMOOTHING_WINDOW))
                          MIN_SAMPLES_BETWEEN_PEAKS in
  StronglySorted lt peaks /\ Forall (fun q => q + 1 < length valid)%nat peaks.
Proof.
  intro peaks.
  destruct (find_peaks_sorted_bounded (map Qopp (smooth_signal (map y valid) VELOCITY_SMOOTHING_WINDOW))
              MIN_SAMPLES_BETWEEN_PEAKS) as [Hs Hb].
  split; [exact Hs|].
  eapply Forall_impl; [|exact Hb]. simpl. intros q [_ Hq].
  rewrite length_map, smooth_signal_length, length_map in Hq. exact Hq.
Qed.

Lemma validate_rep_true_iff (rd : RepDetector) (dur vd : Q) (seg : list Q) :
  validate_rep rd dur vd seg = true
  <-> (MIN_REP_DURATION <= dur /\ dur <= MAX_REP_DURATION)
      /\ min_vertical_displacement rd <= vd /\ arc_smooth_ok seg.
Proof.
  unfold validate_rep, arc_smooth_ok.
  destruct (Qltb dur MIN_REP_DURATION) eqn:E1; simpl.
  { split; [discriminate|]. intros ((H & _) & _). apply Qltb_iff in E1.
    exfalso. apply (Qlt_not_le _ _ E1 H). }
  destruct (Qltb MAX_REP_DURATION dur) eqn:E2; simpl.
  { split; [discriminate|]. intros ((_ & H) & _). apply Qltb_iff in E2.
    exfalso. apply (Qlt_not_le _ _ E2 H). }
  apply Qltb_false_iff in E1. apply Qltb_false_iff in E2.
  destruct (Qltb vd (min_vertical_displacement rd)) eqn:E3.
  { split; [discriminate|]. intros (_ & H & _). apply Qltb_iff in E3.
    exfalso. apply (Qlt_not_le _ _ E3 H). }
  apply Qltb_false_iff in E3.
  destruct (length seg <? 5)%nat eqn:E4.
  { apply Nat.ltb_lt in E4. split; [intros _; auto|reflexivity]. }
  apply Nat.ltb_ge in E4.
  cbv zeta. destruct (Nat.ltb _ _) eqn:E5.
  - apply Nat.ltb_lt in E5. split; [discriminate|]. intros (_ & _ & [H|H]); lia.
  - apply Nat.ltb_ge in E5. split; [intros _; auto|reflexivity].
Qed.

(** C3: a rep produced by [detect_reps] is valid exactly when its duration
    is in [[0.4, 4.0]], its displacement reaches the movement's minimum and
    the arc-smoothness check passes on its raw vertical segment. *)
Theorem rep_validity_criteria (mt : MovementType) (mc : Q)
  (samples : list PositionSample) (r : DetectedRep)
  (Hin : In r (detect_reps (RepDetector_init mt mc) samples)) :
  let valid := filter (fun s => Qleb mc (confidence s)) samples in
  let y_segment := py_slice (map y valid) (start_idx r) (end_idx r + 1) in
  is_valid r = true
  <-> ((4 # 10) <= duration r /\ duration r <= 4)
      /\ displacement_minimum mt <= vertical_displacement r
      /\ arc_smooth_ok y_segment.
Proof.
  intros valid y_segment.
  destruct (detect_reps_shape (RepDetector_init mt mc) samples) as [Hnil|Hseg];
    [rewrite Hnil in Hin; destruct Hin|].
  cbv zeta in Hseg. rewrite Hseg in Hin.
  destruct (in_segment_pairs _ _ _ _ _ _ Hin) as (p & q & _ & _ & Hone).
  destruct (segment_one_fields _ _ _ _ _ _ _ Hone) as (Hs & He & _ & _ & _ & _ & Hv).
  rewrite Hv, validate_rep_true_iff.
  unfold y_segment, valid. rewrite Hs, He.
  replace (min_vertical_displacement (RepDetector_init mt mc)) with (displacement_minimum mt)
    by (destruct mt; reflexivity).
  unfold confident. simpl min_confidence.
  reflexivity.
Qed.

Lemma nth_map_t (l : list PositionSample) (p : nat) :
  nth p (map t l) 0 = t (nth p l (mkSample 0 0 0 0)).
Proof. exact (map_nth t l (mkSample 0 0 0 0) p). Qed.

(** C6: reps have positive spans with [duration = end - start]; across the
    output [start_idx] strictly increases, each rep starts where the previous
    one ends, and time spans only meet at shared endpoints. *)
Theorem detect_reps_ordered (rd : RepDetector) (samples : list PositionSample)
  (Hinc : StronglySorted (fun a b => t a < t b) samples) :
  let reps := detect_reps rd samples in
  (forall r, In r reps ->
     (start_idx r < end_idx r)%nat /\ start_time r < end_time r
     /\ duration r = end_time r - start_time r)
  /\ (forall i j ri rj, (i < j)%nat -> nth_error reps i = Some ri -> nth_error reps j = Some rj ->
        (start_idx ri < start_idx rj)%nat /\ end_time ri <= start_time rj)
  /\ (forall i ri rj, nth_error reps i = Some ri -> nth_error reps (S i) = Some rj ->
        start_idx rj = end_idx ri /\ start_time rj = end_time ri).
Proof.
  intro reps.
  destruct (detect_reps_shape rd samples) as [Hnil|Hseg].
  { unfold reps. rewrite Hnil.
    split; [intros r []|]. split; intros i; [intros j ri rj _ H|intros ri rj H]; destruct i; discriminate. }
  cbv zeta in Hseg.
  set (valid := filter (confident rd) samples) in Hseg.
  set (peaks := find_peaks (map Qopp (smooth_signal (map y valid) VELOCITY_SMOOTHING_WINDOW))
                           MIN_SAMPLES_BETWEEN_PEAKS) in Hseg.
  pose proof (detect_peaks_ok valid) as Hpk. cbv zeta in Hpk. fold peaks in Hpk.
  destruct Hpk as [Hps Hpb].
  assert (Hvs : StronglySorted (fun a b => t a < t b) valid) by (apply StronglySorted_filter; exact Hinc).
  assert (Hpb' : Forall (fun q => q < length (map y valid))%nat peaks).
  { rewrite length_map. eapply Forall_impl; [|exact Hpb]. simpl. intros; lia. }
  pose proof (nth_segment_pairs rd (map t valid) (map y valid) valid peaks Hps Hpb') as Hnth.
  rewrite <- Hseg in Hnth. fold reps in Hnth.
  rewrite Forall_forall in Hpb.
  (* times at two peak indices *)
  assert (Htime : forall a b, (a < b)%nat -> (b < length valid)%nat ->
            nth a (map t valid) 0 < nth b (map t valid) 0).
  { intros a b Hab Hb. rewrite !nth_map_t.
    destruct (nth_error_lt_Some valid a ltac:(lia)) as [sa Ha].
    destruct (nth_error_lt_Some valid b Hb) as [sb Hb'].
    rewrite (nth_error_nth valid a _ Ha), (nth_error_nth valid b _ Hb').
    exact (StronglySorted_nth_error _ _ Hvs a b sa sb Hab Ha Hb'). }
  (* the rep at position [i] *)
  assert (Hrep : forall i r, nth_error reps i = Some r ->
            exists p q, nth_error peaks i = Some p /\ nth_error peaks (S i) = Some q
              /\ start_idx r = p /\ end_idx r = q
              /\ start_time r = nth p (map t valid) 0 /\ end_time r = nth q (map t valid) 0
              /\ duration r = end_time r - start_time r
              /\ (p < q)%nat /\ (q + 1 < length valid)%nat).
  { intros i r Hr. destruct (Hnth i r Hr) as (p & q & Hp & Hq & Hone).
    destruct (segment_one_fields _ _ _ _ _ _ _ Hone) as (H1 & H2 & H3 & H4 & H5 & _).
    exists p, q. repeat split; auto.
    - exact (StronglySorted_nth_error _ _ Hps i (S i) p q ltac:(lia) Hp Hq).
    - apply Hpb. eapply nth_error_In. exact Hq. }
  split; [|split].
  - intros r Hin. apply In_nth_error in Hin as [i Hi].
    destruct (Hrep i r Hi) as (p & q & _ & _ & Hs & He & Hst & Het & Hd & Hpq & Hq).
    repeat split; [lia| |exact Hd].
    rewrite Hst, Het. apply Htime; lia.
  - intros i j ri rj Hij Hi Hj.
    destruct (Hrep i ri Hi) as (p & q & Hp & Hq & Hs & He & Hst & Het & _ & Hpq & Hqb).
    destruct (Hrep j rj Hj) as (p' & q' & Hp' & Hq' & Hs' & He' & Hst' & Het' & _ & Hpq' & Hqb').
    split.
    + rewrite Hs, Hs'. exact (StronglySorted_nth_error _ _ Hps i j p p' Hij Hp Hp').
    + rewrite Het, Hst'. destruct (Nat.eq_dec (S i) j) as [<-|Hne].
      * rewrite Hp' in Hq. injection Hq as ->. apply Qle_refl.
      * apply Qlt_le_weak. apply Htime; [|lia].
        exact (StronglySorted_nth_error _ _ Hps (S i) j q p' ltac:(lia) Hq Hp').
  - intros i ri rj Hi Hj.
    destruct (Hrep i ri Hi) as (p & q & _ & Hq & _ & He & _ & Het & _).
    destruct (Hrep (S i) rj Hj) as (p' & q' & Hp' & _ & Hs' & _ & Hst' & _).
    rewrite Hq in Hp'. injection Hp' as <-. split; congruence.
Qed.

Lemma filter_idem {A} (f : A -> bool) (l : list A) : filter f (filter f l) = filter f l.
Proof.
  induction l as [|a l IH]; [reflexivity|]. simpl.
  destruct (f a) eqn:E; simpl; [rewrite E, IH|]; auto.
Qed.

(** C7: low-confidence samples do not influence [detect_reps] (dropping them
    beforehand changes nothing), and every index of every rep's range
    addresses a sample whose confidence reaches [min_confidence]. *)
Theorem detect_reps_confidence_filter (rd : RepDetector) (samples : list PositionSample) :
  detect_reps rd samples = detect_reps rd (filter (confident rd) samples)
  /\ forall r, In r (detect_reps rd samples) ->
     forall k, (start_idx r <= k <= end_idx r)%nat ->
     exists s, nth_error (filter (confident rd) samples) k = Some s
               /\ min_confidence rd <= confidence s.
Proof.
  split.
  - unfold detect_reps. fold (confident rd). rewrite filter_idem.
    destruct (length samples <? _)%nat eqn:E1.
    + destruct (length (filter (confident rd) samples) <? _)%nat eqn:E2; [reflexivity|].
      apply Nat.ltb_lt in E1. apply Nat.ltb_ge in E2.
      pose proof (filter_length_le (confident rd) samples). lia.
    + destruct (length (filter (confident rd) samples) <? _)%nat; reflexivity.
  - intros r Hin k Hk.
    destruct (detect_reps_shape rd samples) as [Hnil|Hseg]; [rewrite Hnil in Hin; destruct Hin|].
    cbv zeta in Hseg. rewrite Hseg in Hin.
    destruct (in_segment_pairs _ _ _ _ _ _ Hin) as (p & q & _ & Hq & Hone).
    destruct (segment_one_fields _ _ _ _ _ _ _ Hone) as (Hs & He & _).
    pose proof (detect_peaks_ok (filter (confident rd) samples)) as Hpk. cbv zeta in Hpk.
    destruct Hpk as [_ Hpb].
    rewrite Forall_forall in Hpb. specialize (Hpb q Hq).
    destruct (nth_error_lt_Some (filter (confident rd) samples) k ltac:(lia)) as [s Hsk].
    exists s. split; [exact Hsk|].
    apply nth_error_In, filter_In in Hsk as [_ Hc]. apply Qleb_iff. exact Hc.
Qed.

Lemma key_eq_trans (a b c : Q * Q) : key_eq a b = true -> key_eq b c = true -> key_eq a c = true.
Proof.
  unfold key_eq. rewrite !andb_true_iff, !Qeq_bool_iff.
  intros [H1 H2] [H3 H4]. split; eapply Qeq_trans; eassumption.
Qed.

Lemma key_mem_iff (k : Q * Q) (ks : list (Q * Q)) :
  key_mem k ks = true <-> exists k', In k' ks /\ key_eq k k' = true.
Proof. unfold key_mem. apply existsb_exists. Qed.

Lemma key_mem_app (k : Q * Q) (l1 l2 : list (Q * Q)) :
  key_mem k (l1 ++ l2) = key_mem k l1 || key_mem k l2.
Proof. unfold key_mem. apply existsb_app. Qed.

Lemma key_mem_app_new (k : Q * Q) (old all : list DetectedRep) :
  key_mem k (map rep_key (old ++ filter (fun r => negb (key_mem (rep_key r) (map rep_key old))) all))
  = true
  <-> key_mem k (map rep_key old) = true \/ key_mem k (map rep_key all) = true.
Proof.
  rewrite map_app, key_mem_app, orb_true_iff.
  split; intros [H|H]; try (left; exact H).
  - apply key_mem_iff in H as (k' & Hin & Hk). apply in_map_iff in Hin as (r & <- & Hin).
    apply filter_In in Hin as [Hin _]. right. apply key_mem_iff.
    exists (rep_key r). split; [apply in_map; exact Hin|exact Hk].
  - apply key_mem_iff in H as (k' & Hin & Hk). apply in_map_iff in Hin as (r & <- & Hin).
    destruct (key_mem (rep_key r) (map rep_key old)) eqn:Eold.
    + left. apply key_mem_iff in Eold as (k'' & Hin'' & Hk'').
      apply key_mem_iff. exists k''. split; [exact Hin''|]. eapply key_eq_trans; eassumption.
    + right. apply key_mem_iff. exists (rep_key r). split; [|exact Hk].
      apply in_map, filter_In. split; [exact Hin|]. rewrite Eold. reflexivity.
Qed.

Lemma prune_keep (cutoff : Q) (l : list PositionSample) (lpi : nat) :
  (forall h rest, l = h :: rest -> cutoff <= t h) -> prune cutoff l lpi = (l, lpi).
Proof.
  destruct l as [|h rest]; intro H; [reflexivity|]. simpl.
  replace (Qltb (t h) cutoff) with false by (symmetry; apply Qltb_false_iff; eapply H; reflexivity).
  reflexivity.
Qed.

(** One [add_sample] when nothing is evicted. *)
Lemma add_sample_no_evict (rd : RepDetector) (buf : Q) (pre : list PositionSample)
    (det : list DetectedRep) (lpi : nat) (s : PositionSample) :
  (forall h, In h (pre ++ [s]) -> t s - t h <= buf) ->
  snd (add_sample (mkStreaming rd buf pre det lpi) s)
  = mkStreaming rd buf (pre ++ [s])
      (det ++ filter (fun r => negb (key_mem (rep_key r) (map rep_key det)))
                     (detect_reps rd (pre ++ [s]))) lpi.
Proof.
  intro Hbuf. unfold add_sample. simpl buffer. simpl buffer_seconds.
  rewrite last_last.
  rewrite prune_keep; [reflexivity|].
  intros h rest Heq.
  assert (Hh : In h (pre ++ [s])) by (rewrite Heq; left; reflexivity).
  specialize (Hbuf h Hh). lra.
Qed.

Lemma firstn_app_succ (pre l : list PositionSample) (s : PositionSample) :
  firstn (S (length pre)) (pre ++ s :: l) = pre ++ [s].
Proof.
  rewrite firstn_app, firstn_all2 by lia.
  replace (S (length pre) - length pre)%nat with 1%nat by lia. reflexivity.
Qed.

Lemma feed_all_no_evict (rd : RepDetector) (buf : Q) (lpi : nat) :
  forall l pre det,
  (forall s1 s2, In s1 (pre ++ l) -> In s2 (pre ++ l) -> t s2 - t s1 <= buf) ->
  forall k, key_mem k (map rep_key (detected_reps (feed_all (mkStreaming rd buf pre det lpi) l))) = true
  <-> key_mem k (map rep_key det) = true
      \/ exists m, (length pre < m <= length (pre ++ l))%nat
                   /\ key_mem k (map rep_key (detect_reps rd (firstn m (pre ++ l)))) = true.
Proof.
  induction l as [|s l IH]; intros pre det Hbuf k.
  - simpl. rewrite app_nil_r. split; [intro H; left; exact H|].
    intros [H|(m & Hm & _)]; [exact H|lia].
  - unfold feed_all. simpl fold_left. fold (feed_all (snd (add_sample (mkStreaming rd buf pre det lpi) s)) l).
    rewrite add_sample_no_evict.
    2:{ intros h Hh. apply Hbuf; apply in_or_app.
        - apply in_app_or in Hh as [Hh|[<-|[]]]; [left; exact Hh|right; left; reflexivity].
        - right; left; reflexivity. }
    rewrite IH.
    2:{ rewrite <- app_assoc. exact Hbuf. }
    rewrite key_mem_app_new.
    rewrite <- app_assoc. simpl app.
    rewrite length_app. simpl length. rewrite length_app.
    split.
    + intros [[H|H]|(m & Hm & H)].
      * left. exact H.
      * right. exists (S (length pre)). split; [simpl; lia|].
        rewrite firstn_app_succ. exact H.
      * right. exists m. split; [rewrite ?length_app in *; simpl in *; lia|exact H].
    + intros [H|(m & Hm & H)]; [left; left; exact H|].
      destruct (Nat.eq_dec m (S (length pre))) as [->|Hne].
      * left. right. rewrite firstn_app_succ in H. exact H.
      * right. exists m. split; [rewrite ?length_app in *; simpl in *; lia|exact H].
Qed.

(** C4 (as amended): with a buffer that never evicts, the streaming
    detector's cumulative rep keys are exactly the keys found by
    [detect_reps] on some non-empty prefix of the sequence; in particular
    they include every key of the batch run. *)
Theorem streaming_keys_are_prefix_keys (mt : MovementType) (buf mc : Q)
  (samples : list PositionSample)
  (Hbuf : forall s1 s2, In s1 samples -> In s2 samples -> t s2 - t s1 <= buf) :
  let final := get_all_reps (feed_all (StreamingRepDetector_init mt buf mc) samples) in
  let rd := RepDetector_init mt mc in
  (forall k, key_mem k (map rep_key final) = true
     <-> exists m, (1 <= m <= length samples)%nat
                   /\ key_mem k (map rep_key (detect_reps rd (firstn m samples))) = true)
  /\ (forall k, key_mem k (map rep_key (detect_reps rd samples)) = true ->
       key_mem k (map rep_key final) = true).
Proof.
  intros final rd.
  assert (Hall : forall k, key_mem k (map rep_key final) = true
     <-> exists m, (1 <= m <= length samples)%nat
                   /\ key_mem k (map rep_key (detect_reps rd (firstn m samples))) = true).
  { intro k. unfold final, rd, get_all_reps, StreamingRepDetector_init.
    rewrite (feed_all_no_evict (RepDetector_init mt mc) buf 0 samples [] [] Hbuf k). simpl.
    split; [intros [H|(m & Hm & H)]; [discriminate|exists m; split; [lia|exact H]]|].
    intros (m & Hm & H). right. exists m. split; [lia|exact H]. }
  split; [exact Hall|].
  intros k Hk. apply Hall.
  destruct samples as [|s0 rest]; [discriminate Hk|].
  exists (length (s0 :: rest)). split; [simpl; lia|]. rewrite firstn_all. exact Hk.
Qed.

(** C9: in any sequence of calls on a detector and a calculator, each output
    is the pure value of that call on its own input and the configuration,
    whatever calls came before, and the objects are left unchanged. *)
Theorem calls_are_pure (s : Session) (calls : list Call) :
  run s calls = (map (call_value s) calls, s).
Proof.
  induction calls as [|c cs IH]; [reflexivity|].
  simpl. destruct c; simpl; rewrite IH; reflexivity.
Qed.


(* ------------------------------------------------------------------ *)
(** ** Concrete instances *)

Lemma strictly_increasing_t_sound (l : list PositionSample) :
  strictly_increasing_t l = true -> StronglySorted (fun a b => t a < t b) l.
Proof.
  induction l as [|a rest IH]; simpl; intro H; [constructor|].
  apply andb_true_iff in H as [Ha Hr]. constructor; [auto|].
  apply Forall_forall. intros b Hb. rewrite forallb_forall in Ha.
  apply Qltb_iff. apply Ha. exact Hb.
Qed.

Lemma span_within_sound (buf : Q) (l : list PositionSample) :
  span_within buf l = true -> forall s1 s2, In s1 l -> In s2 l -> t s2 - t s1 <= buf.
Proof.
  unfold span_within. rewrite forallb_forall. intros H s1 s2 H1 H2.
  specialize (H s1 H1). rewrite forallb_forall in H. apply Qleb_iff. apply H. exact H2.
Qed.

Ltac decide_q := solve [vm_compute; reflexivity | vm_compute; intro; discriminate].

Lemma drop_calculator_valid : valid_config drop_calculator.
Proof. unfold valid_config; simpl; repeat split; try lia; decide_q. Qed.

Lemma default_calculator_valid : valid_config default_calculator.
Proof. unfold valid_config; simpl; repeat split; try lia; decide_q. Qed.

Lemma wide_window_calculator_valid : valid_config wide_window_calculator.
Proof. unfold valid_config; simpl; repeat split; try lia; decide_q. Qed.

Lemma ex_samples_increasing : StronglySorted (fun a b => t a < t b) ex_samples.
Proof. apply strictly_increasing_t_sound. vm_compute. reflexivity. Qed.

Lemma ex_samples_span : forall s1 s2, In s1 ex_samples -> In s2 ex_samples -> t s2 - t s1 <= 1000.
Proof. apply span_within_sound. vm_compute. reflexivity. Qed.

(** C1 at the spec's sustained-drop scenario: the theorem applies and the
    ANT is the first post-baseline rep, index 5, with a 50% drop. *)
Lemma ant_index_is_first_sustained_run_witness :
  valid_config drop_calculator
  /\ (baseline_reps drop_calculator + sustain_count drop_calculator
      <= Z.of_nat (length (filter is_valid drop_reps)))%Z
  /\ 0 < baseline_of drop_calculator drop_reps
  /\ (exists res, calculate drop_calculator drop_reps = Some res
      /\ baseline_speed res = baseline_of drop_calculator drop_reps
      /\ smoothed_speeds res = ant_smooth (valid_speeds drop_reps) (smoothing_window drop_calculator)
      /\ threshold_flags res
         = map (fun s => Qltb s (baseline_speed res * (1 - drop_threshold drop_calculator)))
               (smoothed_speeds res)
      /\ ((exists j r cur,
             ant_rep_index res = Some (Z.of_nat j)
             /\ first_run_at (threshold_flags res) (Z.to_nat (sustain_count drop_calculator)) j
             /\ ant_reached res = true
             /\ nth_error (filter is_valid drop_reps) j = Some r
             /\ nth_error (smoothed_speeds res) j = Some cur
             /\ ant_timestamp_seconds res = Some (start_time r)
             /\ drop_percent_at_ant res = Some ((baseline_speed res - cur) / baseline_speed res))
          \/ (ant_rep_index res = None
              /\ (forall j, ~ window_true (threshold_flags res) j
                                (Z.to_nat (sustain_count drop_calculator)))
              /\ ant_reached res = false
              /\ ant_timestamp_seconds res = None
              /\ drop_percent_at_ant res = None)))
  /\ calculate drop_calculator drop_reps = Some drop_result
  /\ 25 # 50 == 1 # 2.
Proof.
  assert (Hc := drop_calculator_valid).
  assert (Hn : (baseline_reps drop_calculator + sustain_count drop_calculator
                <= Z.of_nat (length (filter is_valid drop_reps)))%Z) by (vm_compute; intro; discriminate).
  assert (Hb : 0 < baseline_of drop_calculator drop_reps) by decide_q.
  split; [exact Hc|]. split; [exact Hn|]. split; [exact Hb|]. split.
  - exact (ant_index_is_first_sustained_run drop_calculator drop_reps Hc Hn Hb).
  - split; [vm_compute; reflexivity|decide_q].
Defined.

(** C2 at the spec's boundary: six valid reps with [baseline_reps = 5] and
    [sustain_count = 2] give the insufficient-data result. *)
Lemma calculate_insufficient_iff_witness :
  valid_config default_calculator
  /\ exists res, calculate default_calculator six_valid_reps = Some res
                 /\ is_insufficient_result res.
Proof.
  split; [exact default_calculator_valid|].
  destruct (calculate_insufficient_iff default_calculator six_valid_reps default_calculator_valid)
    as (res & Hres & Hiff).
  exists res. split; [exact Hres|]. apply Hiff. vm_compute. reflexivity.
Defined.

(** C10 on the sustained-drop scenario. *)
Lemma ant_reached_consistent_witness :
  valid_config drop_calculator
  /\ calculate drop_calculator drop_reps = Some drop_result
  /\ ant_reached drop_result = true
  /\ 0 < baseline_speed drop_result
  /\ exists j p, ant_rep_index drop_result = Some (Z.of_nat j)
     /\ (j < length (filter is_valid drop_reps))%nat
     /\ drop_percent_at_ant drop_result = Some p
     /\ drop_threshold drop_calculator < p.
Proof.
  assert (Hcalc : calculate drop_calculator drop_reps = Some drop_result) by (vm_compute; reflexivity).
  split; [exact drop_calculator_valid|]. split; [exact Hcalc|]. split; [reflexivity|].
  exact (ant_reached_consistent drop_calculator drop_reps drop_result drop_calculator_valid Hcalc
           eq_refl).
Defined.

(** C5 as stated fails: with four valid reps and a window of 5 the gates
    pass, yet the first smoothed speed is the raw 1, not the trimmed
    average (1 + 2 + 3) / 3 = 2. *)
Lemma smoothing_short_sequence_counterexample :
  valid_config wide_window_calculator
  /\ (baseline_reps wide_window_calculator + sustain_count wide_window_calculator
      <= Z.of_nat (length (filter is_valid short_reps)))%Z
  /\ 0 < baseline_of wide_window_calculator short_reps
  /\ calculate wide_window_calculator short_reps = Some short_result
  /\ ~ (forall i s, nth_error (smoothed_speeds short_result) i = Some s ->
          s == trimmed_mean (valid_speeds short_reps) (smoothing_window wide_window_calculator) i).
Proof.
  split; [exact wide_window_calculator_valid|].
  split; [vm_compute; intro; discriminate|].
  split; [decide_q|].
  split; [vm_compute; reflexivity|].
  intro H. specialize (H 0%nat 1 eq_refl). vm_compute in H. discriminate.
Qed.

(** C5 (amended) on the same input: the raw speeds are returned. *)
Lemma smoothed_speeds_trimmed_average_witness :
  valid_config wide_window_calculator
  /\ calculate wide_window_calculator short_reps = Some short_result
  /\ smoothed_speeds short_result = valid_speeds short_reps.
Proof.
  assert (Hn : (baseline_reps wide_window_calculator + sustain_count wide_window_calculator
                <= Z.of_nat (length (filter is_valid short_reps)))%Z) by (vm_compute; intro; discriminate).
  assert (Hb : 0 < baseline_of wide_window_calculator short_reps) by decide_q.
  assert (Hcalc : calculate wide_window_calculator short_reps = Some short_result)
    by (vm_compute; reflexivity).
  split; [exact wide_window_calculator_valid|]. split; [exact Hcalc|].
  apply (proj1 (smoothed_speeds_trimmed_average wide_window_calculator short_reps short_result
                  wide_window_calculator_valid Hn Hb Hcalc)).
  vm_compute. reflexivity.
Defined.

(** C8 on the default configuration. *)
Lemma ANTCalculator_init_spec_witness :
  ANTCalculator_init 5 (1 # 5) 3 2 = inr default_calculator
  /\ default_calculator = mkANTCalculator 5 (1 # 5) 3 2
  /\ forall reps, exists res, calculate default_calculator reps = Some res.
Proof.
  assert (Hinit : ANTCalculator_init 5 (1 # 5) 3 2 = inr default_calculator) by reflexivity.
  split; [exact Hinit|].
  exact (proj2 (ANTCalculator_init_spec 5 (1 # 5) 3 2) default_calculator Hinit).
Defined.

(** C3 on the sample trace: its single rep lasts 10 s and is invalid. *)
Lemma rep_validity_criteria_witness :
  In ex_first_rep (detect_reps swing_detector ex_samples)
  /\ (is_valid ex_first_rep = true
      <-> ((4 # 10) <= duration ex_first_rep /\ duration ex_first_rep <= 4)
          /\ displacement_minimum SWING_LEFT <= vertical_displacement ex_first_rep
          /\ arc_smooth_ok (py_slice (map y (filter (fun s => Qleb (1 # 2) (confidence s)) ex_samples))
                              (start_idx ex_first_rep) (end_idx ex_first_rep + 1)))
  /\ is_valid ex_first_rep = false.
Proof.
  assert (Hin : In ex_first_rep (detect_reps swing_detector ex_samples))
    by (vm_compute; left; reflexivity).
  split; [exact Hin|]. split; [|vm_compute; reflexivity].
  exact (rep_validity_criteria SWING_LEFT (1 # 2) ex_samples ex_first_rep Hin).
Defined.

(** C6 on the sample trace. *)
Lemma detect_reps_ordered_witness :
  StronglySorted (fun a b => t a < t b) ex_samples
  /\ (forall r, In r (detect_reps swing_detector ex_samples) ->
       (start_idx r < end_idx r)%nat /\ start_time r < end_time r
       /\ duration r = end_time r - start_time r).
Proof.
  split; [exact ex_samples_increasing|].
  exact (proj1 (detect_reps_ordered swing_detector ex_samples ex_samples_increasing)).
Defined.

(** C7 on the sample trace. *)
Lemma detect_reps_confidence_filter_witness :
  detect_reps swing_detector ex_samples
  = detect_reps swing_detector (filter (confident swing_detector) ex_samples).
Proof. exact (proj1 (detect_reps_confidence_filter swing_detector ex_samples)). Defined.

(** C4 as stated fails: fed one sample at a time with a 1000 s buffer, the
    streaming detector reports the rep (3 s, 9 s) found on the first 12
    samples; on the whole trace the peak at 9 is replaced by the higher one
    at 13, so the batch run reports only (3 s, 13 s). *)
Lemma streaming_batch_differ_counterexample :
  StronglySorted (fun a b => t a < t b) ex_samples
  /\ (forall s1 s2, In s1 ex_samples -> In s2 ex_samples -> t s2 - t s1 <= 1000)
  /\ key_mem (3, 9) (map rep_key (get_all_reps
        (feed_all (StreamingRepDetector_init SWING_LEFT 1000 (1 # 2)) ex_samples))) = true
  /\ key_mem (3, 9) (map rep_key (detect_reps (RepDetector_init SWING_LEFT (1 # 2)) ex_samples))
     = false.
Proof.
  split; [exact ex_samples_increasing|]. split; [exact ex_samples_span|].
  split; vm_compute; reflexivity.
Qed.

(** C4 (amended) on the sample trace. *)
Lemma streaming_keys_are_prefix_keys_witness :
  (forall s1 s2, In s1 ex_samples -> In s2 ex_samples -> t s2 - t s1 <= 1000)
  /\ key_mem (3, 13) (map rep_key (get_all_reps
        (feed_all (StreamingRepDetector_init SWING_LEFT 1000 (1 # 2)) ex_samples))) = true.
Proof.
  split; [exact ex_samples_span|].
  apply (proj2 (streaming_keys_are_prefix_keys SWING_LEFT 1000 (1 # 2) ex_samples ex_samples_span)).
  vm_compute. reflexivity.
Defined.

(* ================================================================== *)
(** * Further properties of the code *)

(* ------------------------------------------------------------------ *)
(** ** Lists and averages *)

Lemma In_firstn {A} (n : nat) (l : list A) (v : A) : In v (firstn n l) -> In v l.
Proof. intro H. rewrite <- (firstn_skipn n l). apply in_or_app. left. exact H. Qed.

Lemma In_skipn {A} (n : nat) (l : list A) (v : A) : In v (skipn n l) -> In v l.
Proof. intro H. rewrite <- (firstn_skipn n l). apply in_or_app. right. exact H. Qed.

Lemma In_py_slice {A} (l : list A) (a b : nat) (v : A) : In v (py_slice l a b) -> In v l.
Proof. unfold py_slice. intro H. apply In_firstn in H. apply In_skipn in H. exact H. Qed.

Lemma inject_Z_succ (n : nat) : inject_Z (Z.of_nat (S n)) == inject_Z (Z.of_nat n) + 1.
Proof. rewrite Nat2Z.inj_succ. unfold Z.succ. rewrite inject_Z_plus. reflexivity. Qed.

Lemma inject_Z_nat_pos (n : nat) : (0 < n)%nat -> 0 < inject_Z (Z.of_nat n).
Proof. intro H. unfold Qlt. simpl. lia. Qed.

Lemma Qsum_lower (lo : Q) (l : list Q) :
  Forall (fun v => lo <= v) l -> lo * inject_Z (Z.of_nat (length l)) <= Qsum l.
Proof.
  induction l as [|a l IH]; intro H; simpl Qsum.
  - simpl. rewrite Qmult_0_r. apply Qle_refl.
  - inversion H as [|? ? Ha Hl]; subst. specialize (IH Hl).
    simpl length. rewrite inject_Z_succ. nra.
Qed.

Lemma Qsum_upper (hi : Q) (l : list Q) :
  Forall (fun v => v <= hi) l -> Qsum l <= hi * inject_Z (Z.of_nat (length l)).
Proof.
  induction l as [|a l IH]; intro H; simpl Qsum.
  - simpl. rewrite Qmult_0_r. apply Qle_refl.
  - inversion H as [|? ? Ha Hl]; subst. specialize (IH Hl).
    simpl length. rewrite inject_Z_succ. nra.
Qed.

Lemma np_mean_lower (lo : Q) (l : list Q) :
  l <> [] -> Forall (fun v => lo <= v) l -> lo <= np_mean l.
Proof.
  intros Hne H. unfold np_mean. apply Qle_shift_div_l.
  - apply inject_Z_nat_pos. destruct l; [congruence|simpl; lia].
  - apply Qsum_lower. exact H.
Qed.

Lemma np_mean_upper (hi : Q) (l : list Q) :
  l <> [] -> Forall (fun v => v <= hi) l -> np_mean l <= hi.
Proof.
  intros Hne H. unfold np_mean. apply Qle_shift_div_r.
  - apply inject_Z_nat_pos. destruct l; [congruence|simpl; lia].
  - apply Qsum_upper. exact H.
Qed.

(** Every value of [ant_smooth] is a data value or the mean of a
    non-empty slice of the data. *)
Lemma ant_smooth_values (data : list Q) (w : Z) (v : Q) :
  In v (ant_smooth data w) ->
  In v data \/ exists a b, py_slice data a b <> [] /\ v = np_mean (py_slice data a b).
Proof.
  unfold ant_smooth. cbv zeta. destruct (_ || _) eqn:E; [intro H; left; exact H|].
  apply orb_false_iff in E as [E1 E2]. apply Z.leb_gt in E1. apply Z.ltb_ge in E2.
  intro H. apply in_map_iff in H as (i & <- & Hi). apply in_seq in Hi.
  right. eexists _, _. split; [|reflexivity].
  intro Hnil. apply (f_equal (@length Q)) in Hnil. unfold py_slice in Hnil.
  rewrite length_firstn, length_skipn in Hnil. simpl in Hnil.
  assert (0 <= w / 2)%Z by (apply Z.div_pos; lia). lia.
Qed.

Lemma Qsum_map_mult (k : Q) (l : list Q) : Qsum (map (fun p => p * k) l) == Qsum l * k.
Proof. induction l as [|a l IH]; simpl; [ring|]. rewrite IH. ring. Qed.

Lemma inject_Z_times_inv (w : nat) : w <> 0%nat ->
  inject_Z (Z.of_nat w) * (1 # Pos.of_nat w) == 1.
Proof.
  intro Hw. assert (E : Z.pos (Pos.of_nat w) = Z.of_nat w)
    by (rewrite <- positive_nat_Z, Nat2Pos.id; [reflexivity|exact Hw]).
  unfold Qeq, Qmult. simpl. rewrite E. lia.
Qed.

Lemma In_last {A} (l : list A) (d : A) : l <> [] -> In (last l d) l.
Proof.
  intro H. destruct (exists_last H) as (l' & a & ->). rewrite last_last.
  apply in_or_app. right. left. reflexivity.
Qed.

(** Every value of [smooth_signal] is a signal value or the average of
    [window] values of the signal. *)
Lemma smooth_signal_values (signal : list Q) (window : nat) (v : Q) :
  In v (smooth_signal signal window) ->
  In v signal
  \/ (window <> 0%nat /\ exists L, length L = window /\ (forall u, In u L -> In u signal)
                              /\ v == Qsum L * (1 # Pos.of_nat window)).
Proof.
  unfold smooth_signal. destruct (_ || _) eqn:E; [intro H; left; exact H|].
  apply orb_false_iff in E as [E1 E2]. apply Nat.leb_gt in E1. apply Nat.ltb_ge in E2.
  cbv zeta. intro H. apply in_map_iff in H as (i & <- & Hi). apply in_seq in Hi.
  right. split; [lia|].
  set (padded := repeat (hd 0 signal) (window / 2) ++ signal
                 ++ repeat (last signal 0) (window - 1 - window / 2)).
  assert (Hne : signal <> []) by (intro; subst; simpl in E2; lia).
  exists (firstn window (skipn i padded)). split; [|split].
  - rewrite length_firstn, length_skipn. unfold padded in *.
    rewrite !length_app, !repeat_length in *.
    pose proof (Nat.div_mod_eq window 2). pose proof (Nat.mod_upper_bound window 2). lia.
  - intros u Hu. apply In_firstn, In_skipn in Hu. unfold padded in Hu.
    apply in_app_or in Hu as [Hu|Hu]; [|apply in_app_or in Hu as [Hu|Hu]].
    + apply repeat_spec in Hu. subst u. destruct signal; [congruence|left; reflexivity].
    + exact Hu.
    + apply repeat_spec in Hu. subst u. apply In_last. exact Hne.
  - apply Qsum_map_mult.
Qed.

Lemma smooth_signal_lower (signal : list Q) (window : nat) (lo : Q) :
  (forall v, In v signal -> lo <= v) -> forall v, In v (smooth_signal signal window) -> lo <= v.
Proof.
  intros H v Hv. destruct (smooth_signal_values signal window v Hv) as [Hin|(Hw & L & HL & Hsub & ->)].
  - apply H. exact Hin.
  - assert (Hs : lo * inject_Z (Z.of_nat (length L)) <= Qsum L)
      by (apply Qsum_lower, Forall_forall; intros u Hu; apply H, Hsub, Hu).
    rewrite HL in Hs.
    apply (Qmult_le_compat_r _ _ (1 # Pos.of_nat window)) in Hs; [|discriminate].
    rewrite <- Qmult_assoc, inject_Z_times_inv, Qmult_1_r in Hs by exact Hw. exact Hs.
Qed.

Lemma smooth_signal_upper (signal : list Q) (window : nat) (hi : Q) :
  (forall v, In v signal -> v <= hi) -> forall v, In v (smooth_signal signal window) -> v <= hi.
Proof.
  intros H v Hv. destruct (smooth_signal_values signal window v Hv) as [Hin|(Hw & L & HL & Hsub & ->)].
  - apply H. exact Hin.
  - assert (Hs : Qsum L <= hi * inject_Z (Z.of_nat (length L)))
      by (apply Qsum_upper, Forall_forall; intros u Hu; apply H, Hsub, Hu).
    rewrite HL in Hs.
    apply (Qmult_le_compat_r _ _ (1 # Pos.of_nat window)) in Hs; [|discriminate].
    rewrite <- Qmult_assoc, inject_Z_times_inv, Qmult_1_r in Hs by exact Hw. exact Hs.
Qed.

Lemma fold_Qmax_ge (l : list Q) : forall a, a <= fold_left Qmax l a /\ forall v, In v l -> v <= fold_left Qmax l a.
Proof.
  induction l as [|b l IH]; intro a; simpl; [split; [apply Qle_refl|intros _ []]|].
  destruct (IH (Qmax a b)) as [H1 H2]. split.
  - eapply Qle_trans; [apply Q.le_max_l|exact H1].
  - intros v [<-|Hv]; [eapply Qle_trans; [apply Q.le_max_r|exact H1]|apply H2, Hv].
Qed.

Lemma fold_Qmin_le (l : list Q) : forall a, fold_left Qmin l a <= a /\ forall v, In v l -> fold_left Qmin l a <= v.
Proof.
  induction l as [|b l IH]; intro a; simpl; [split; [apply Qle_refl|intros _ []]|].
  destruct (IH (Qmin a b)) as [H1 H2]. split.
  - eapply Qle_trans; [exact H1|apply Q.le_min_l].
  - intros v [<-|Hv]; [eapply Qle_trans; [exact H1|apply Q.le_min_r]|apply H2, Hv].
Qed.

Lemma np_max_ge (l : list Q) (v : Q) : In v l -> v <= np_max l.
Proof.
  destruct l as [|a rest]; [intros []|]. simpl np_max. intros [<-|Hv].
  - apply (proj1 (fold_Qmax_ge rest a)).
  - apply (proj2 (fold_Qmax_ge rest a)), Hv.
Qed.

Lemma np_min_le (l : list Q) (v : Q) : In v l -> np_min l <= v.
Proof.
  destruct l as [|a rest]; [intros []|]. simpl np_min. intros [<-|Hv].
  - apply (proj1 (fold_Qmin_le rest a)).
  - apply (proj2 (fold_Qmin_le rest a)), Hv.
Qed.

Lemma np_max_nonneg (l : list Q) : (forall v, In v l -> 0 <= v) -> 0 <= np_max l.
Proof.
  destruct l as [|a rest]; intro H; [apply Qle_refl|].
  eapply Qle_trans; [apply H; left; reflexivity|apply np_max_ge; left; reflexivity].
Qed.

Lemma calculate_peak_speed_nonneg (times : list Q) (samples : list PositionSample) :
  0 <= calculate_peak_speed times samples.
Proof.
  unfold calculate_peak_speed. destruct (_ <? 2)%nat; [apply Qle_refl|]. cbv zeta.
  set (v0 := map (fun '(a, b) => Qabs (a / b)) _).
  assert (H0 : forall v, In v v0 -> 0 <= v).
  { intros v Hv. unfold v0 in Hv. apply in_map_iff in Hv as ([a b] & <- & _). apply Qabs_nonneg. }
  destruct (0 <? length _)%nat; [|apply Qle_refl].
  apply np_max_nonneg. destruct (_ <=? _)%nat; [|exact H0].
  apply smooth_signal_lower. exact H0.
Qed.

Lemma segment_one_measures (rd : RepDetector) (times y_raw : list Q)
    (samples : list PositionSample) (p q : nat) (r : DetectedRep) :
  segment_one rd times y_raw samples p q = Some r ->
  0 <= peak_speed r /\ 0 <= vertical_displacement r.
Proof.
  unfold segment_one. destruct (length (py_slice y_raw p (q + 1)) <? 2)%nat eqn:E; [discriminate|].
  intro H. injection H as <-. simpl. split; [apply calculate_peak_speed_nonneg|].
  apply Nat.ltb_ge in E. destruct (py_slice y_raw p (q + 1)) as [|a seg] eqn:Es; [simpl in E; lia|].
  assert (np_min (a :: seg) <= a) by (apply np_min_le; left; reflexivity).
  assert (a <= np_max (a :: seg)) by (apply np_max_ge; left; reflexivity).
  lra.
Qed.

Lemma valid_config_of_init (B : Z) (d : Q) (w S : Z) (c : ANTCalculator) :
  ANTCalculator_init B d w S = inr c -> valid_config c /\ c = mkANTCalculator B d w S.
Proof.
  unfold ANTCalculator_init.
  destruct (B <? 3)%Z eqn:E1; [discriminate|].
  destruct (negb (Qltb 0 d && Qltb d 1)) eqn:E2; [discriminate|].
  destruct (w <? 1)%Z eqn:E3; [discriminate|].
  destruct (S <? 1)%Z eqn:E4; [discriminate|].
  intro H. injection H as <-. split; [|reflexivity].
  apply negb_false_iff, andb_true_iff in E2 as [E2a E2b].
  apply Qltb_iff in E2a. apply Qltb_iff in E2b.
  apply Z.ltb_ge in E1. apply Z.ltb_ge in E3. apply Z.ltb_ge in E4.
  unfold valid_config. simpl. auto.
Qed.

(* ------------------------------------------------------------------ *)
(** ** [ANTCalculator.calculate] and [_smooth] *)

(** [calculate] only looks at the valid reps: removing (or adding) reps with
    [is_valid = False] anywhere in the input never changes the result. *)
Theorem calculate_ignores_invalid_reps (c : ANTCalculator) (reps : list DetectedRep) :
  calculate c reps = calculate c (filter is_valid reps).
Proof. unfold calculate. rewrite filter_idem. reflexivity. Qed.

(** Every result [calculate] returns is internally consistent: one flag per
    smoothed speed, one smoothed speed per valid rep (or none at all), a
    non-negative baseline, the index, timestamp and drop percentage set
    exactly when [ant_reached] holds, and no flag raised when the baseline
    is 0. *)
Theorem calculate_result_consistent (c : ANTCalculator) (reps : list DetectedRep) (res : ANTResult) :
  calculate c reps = Some res ->
  length (threshold_flags res) = length (smoothed_speeds res)
  /\ (smoothed_speeds res = [] \/ length (smoothed_speeds res) = length (filter is_valid reps))
  /\ 0 <= baseline_speed res
  /\ (ant_reached res = true <-> ant_rep_index res <> None)
  /\ (ant_rep_index res = None <-> ant_timestamp_seconds res = None)
  /\ (ant_rep_index res = None <-> drop_percent_at_ant res = None)
  /\ (baseline_speed res == 0 -> forall b, In b (threshold_flags res) -> b = false).
Proof.
  unfold calculate. cbv zeta.
  destruct (_ <? _)%Z.
  { intro H. injection H as <-. simpl.
    split; [reflexivity|]. split; [left; reflexivity|]. split; [apply Qle_refl|].
    split; [split; [discriminate|intro H; exfalso; apply H; reflexivity]|].
    split; [tauto|]. split; [tauto|]. intros _ b []. }
  destruct (Qleb _ 0) eqn:Eb.
  { intro H. injection H as <-. simpl.
    split; [rewrite repeat_length; reflexivity|]. split; [right; apply length_map|].
    split; [apply Qle_refl|].
    split; [split; [discriminate|intro H; exfalso; apply H; reflexivity]|].
    split; [tauto|]. split; [tauto|]. intros _ b Hb. apply repeat_spec in Hb. exact Hb. }
  assert (Hb : 0 < np_mean (py_take (map peak_speed (filter is_valid reps)) (baseline_reps c))).
  { apply Qnot_le_lt. intro Hle. apply Qle_bool_iff in Hle. unfold Qleb in Eb. congruence. }
  clear Eb.
  assert (Hnz : forall q, q == 0 -> 0 < q -> False).
  { intros q Hq Hlt. rewrite Hq in Hlt. exact (Qlt_irrefl 0 Hlt). }
  destruct (find_sustained_drop _ _) as [j|].
  - destruct (py_index (filter is_valid reps) j) as [r|]; [|discriminate].
    destruct (py_index (ant_smooth _ _) j) as [cur|]; [|discriminate].
    intro H. injection H as <-. simpl.
    split; [apply length_map|]. split; [right; rewrite ant_smooth_length; apply length_map|].
    split; [apply Qlt_le_weak, Hb|].
    split; [split; [intros _; discriminate|reflexivity]|].
    split; [split; discriminate|]. split; [split; discriminate|].
    intros Hz. exfalso. exact (Hnz _ Hz Hb).
  - intro H. injection H as <-. simpl.
    split; [apply length_map|]. split; [right; rewrite ant_smooth_length; apply length_map|].
    split; [apply Qlt_le_weak, Hb|].
    split; [split; [discriminate|intro H; exfalso; apply H; reflexivity]|].
    split; [tauto|]. split; [tauto|].
    intros Hz. exfalso. exact (Hnz _ Hz Hb).
Qed.

(** [_smooth] never leaves the range of its data: every smoothed speed
    lies between any lower and upper bound of the raw speeds. *)
Theorem ant_smooth_within_bounds (data : list Q) (w : Z) (lo hi : Q) :
  (forall v, In v data -> lo <= v <= hi) ->
  forall v, In v (ant_smooth data w) -> lo <= v <= hi.
Proof.
  intros H v Hv. destruct (ant_smooth_values data w v Hv) as [Hin|(a & b & Hne & ->)].
  - apply H, Hin.
  - split.
    + apply np_mean_lower; [exact Hne|]. apply Forall_forall. intros u Hu.
      apply H. eapply In_py_slice. exact Hu.
    + apply np_mean_upper; [exact Hne|]. apply Forall_forall. intros u Hu.
      apply H. eapply In_py_slice. exact Hu.
Qed.

(* ------------------------------------------------------------------ *)
(** ** [RepDetector] *)

(** [_smooth_signal] (edge-padded moving average) never leaves the range of
    its input signal. *)
Theorem smooth_signal_within_bounds (signal : list Q) (window : nat) (lo hi : Q) :
  (forall v, In v signal -> lo <= v <= hi) ->
  forall v, In v (smooth_signal signal window) -> lo <= v <= hi.
Proof.
  intros H v Hv. split.
  - apply (smooth_signal_lower signal window lo); [intros u Hu; apply H, Hu|exact Hv].
  - apply (smooth_signal_upper signal window hi); [intros u Hu; apply H, Hu|exact Hv].
Qed.

(** Every rep [detect_reps] returns has a non-negative peak speed and a
    non-negative vertical displacement. *)
Theorem detect_reps_measures_nonneg (rd : RepDetector) (samples : list PositionSample) :
  forall r, In r (detect_reps rd samples) -> 0 <= peak_speed r /\ 0 <= vertical_displacement r.
Proof.
  intros r Hr. destruct (detect_reps_shape rd samples) as [E|E]; rewrite E in Hr; [destruct Hr|].
  apply in_segment_pairs in Hr as (p & q & _ & _ & Hs).
  eapply segment_one_measures. exact Hs.
Qed.

Lemma StronglySorted_rev {A} (R : A -> A -> Prop) (l : list A) :
  StronglySorted (fun a b => R b a) l -> StronglySorted R (rev l).
Proof.
  induction l as [|a l IH]; intro H; [constructor|].
  apply StronglySorted_inv in H as [H Ha]. simpl.
  apply StronglySorted_app; [auto|repeat constructor|].
  intros x y Hx [<-|[]]. rewrite <- in_rev in Hx.
  rewrite Forall_forall in Ha. apply Ha. exact Hx.
Qed.

Definition local_max (signal : list Q) (p : nat) : bool :=
  Qltb (nth (p - 1) signal 0) (nth p signal 0) && Qltb (nth (p + 1) signal 0) (nth p signal 0).

(** Invariant of the [_find_peaks] loop: accepted peaks (newest first) are
    at least [min_distance] apart, below the next candidate, and local
    maxima. *)
Lemma find_peaks_fold_spaced (signal : list Q) (md : nat) :
  forall m a acc,
  StronglySorted (fun x z => z + md <= x)%nat acc ->
  Forall (fun p => p < a)%nat acc ->
  Forall (fun p => local_max signal p = true) acc ->
  StronglySorted (fun x z => z + md <= x)%nat (fold_left (find_peaks_step signal md) (seq a m) acc)
  /\ Forall (fun p => local_max signal p = true) (fold_left (find_peaks_step signal md) (seq a m) acc).
Proof.
  induction m as [|m IH]; intros a acc Hs Hlt HP; [simpl; auto|].
  simpl. apply IH.
  - unfold find_peaks_step. destruct (_ && _); [|exact Hs].
    destruct acc as [|p older]; [repeat constructor|].
    assert (p < a)%nat by (inversion Hlt; assumption).
    apply StronglySorted_inv in Hs as [Hs' Hp]. rewrite Forall_forall in Hp.
    destruct (md <=? a - p)%nat eqn:Ed.
    + apply Nat.leb_le in Ed. constructor; [constructor; [exact Hs'|apply Forall_forall; exact Hp]|].
      constructor; [lia|]. apply Forall_forall. intros z Hz. specialize (Hp z Hz). lia.
    + destruct (Qltb _ _); [|constructor; [exact Hs'|apply Forall_forall; exact Hp]].
      constructor; [exact Hs'|]. apply Forall_forall. intros z Hz. specialize (Hp z Hz). lia.
  - unfold find_peaks_step. destruct (_ && _).
    + destruct acc as [|p older]; [repeat constructor|].
      * destruct (md <=? a - p)%nat.
        -- constructor; [lia|]. eapply Forall_impl; [|exact Hlt]. simpl. intros; lia.
        -- destruct (Qltb _ _).
           ++ constructor; [lia|]. inversion Hlt; subst.
              eapply Forall_impl; [|eassumption]. simpl. intros; lia.
           ++ eapply Forall_impl; [|exact Hlt]. simpl. intros; lia.
    + eapply Forall_impl; [|exact Hlt]. simpl. intros; lia.
  - unfold find_peaks_step. destruct (_ && _) eqn:Ec; [|exact HP].
    destruct acc as [|p older]; [constructor; [exact Ec|constructor]|].
    destruct (md <=? a - p)%nat; [constructor; [exact Ec|exact HP]|].
    destruct (Qltb (nth p signal 0) (nth a signal 0)); [|exact HP].
    inversion HP; subst. constructor; [exact Ec|assumption].
Qed.

Lemma find_peaks_spacing (signal : list Q) (md : nat) :
  StronglySorted (fun p q => p + md <= q)%nat (find_peaks signal md)
  /\ Forall (fun p => local_max signal p = true) (find_peaks signal md).
Proof.
  unfold find_peaks.
  destruct (find_peaks_fold_spaced signal md (length signal - 2) 1 []
              ltac:(constructor) ltac:(constructor) ltac:(constructor)) as [Hs HP].
  split; [apply StronglySorted_rev; exact Hs|apply Forall_rev; exact HP].
Qed.

(** Indices at least [md] apart inside [[lo, hi)]: the first plus [md]
    times the number of gaps is still below [hi]. *)
Lemma spaced_chain (md hi : nat) (l : list nat) : forall lo,
  StronglySorted (fun p q => p + md <= q)%nat l ->
  Forall (fun p => lo <= p < hi)%nat l -> l <> [] ->
  (lo + (length l - 1) * md < hi)%nat.
Proof.
  induction l as [|p l IH]; intros lo Hs Hb Hne; [congruence|].
  apply StronglySorted_inv in Hs as [Hs Hp]. inversion Hb as [|? ? Hpb Hb']; subst.
  destruct l as [|p' l'].
  - simpl. lia.
  - assert (IH' : (p + md + (length (p' :: l') - 1) * md < hi)%nat).
    { apply IH; [exact Hs| |discriminate].
      rewrite Forall_forall in *. intros z Hz. split; [apply Hp, Hz|apply Hb', Hz]. }
    simpl length in *. simpl Nat.sub in *. nia.
Qed.

Lemma length_segment_pairs (rd : RepDetector) (times y_raw : list Q)
    (samples : list PositionSample) (peaks : list nat) :
  (length (segment_pairs rd times y_raw samples peaks) <= length peaks - 1)%nat.
Proof.
  induction peaks as [|p rest IH]; [simpl; lia|].
  destruct rest as [|q rest']; [simpl; lia|].
  simpl segment_pairs. destruct (segment_one _ _ _ _ p q); simpl in *; lia.
Qed.

(** [_find_peaks] returns strict local maxima of the signal, at interior
    indices, in increasing order and at least [min_distance] apart. *)
Theorem find_peaks_spaced_local_maxima (signal : list Q) (min_distance : nat) :
  StronglySorted lt (find_peaks signal min_distance)
  /\ StronglySorted (fun p q => p + min_distance <= q)%nat (find_peaks signal min_distance)
  /\ forall p, In p (find_peaks signal min_distance) ->
     (1 <= p /\ p + 1 < length signal)%nat
     /\ nth (p - 1) signal 0 < nth p signal 0 /\ nth (p + 1) signal 0 < nth p signal 0.
Proof.
  destruct (find_peaks_sorted_bounded signal min_distance) as [Hlt Hb].
  destruct (find_peaks_spacing signal min_distance) as [Hsp Hmax].
  split; [exact Hlt|]. split; [exact Hsp|].
  intros p Hp. rewrite Forall_forall in Hb, Hmax. split; [apply Hb, Hp|].
  specialize (Hmax p Hp). unfold local_max in Hmax. apply andb_true_iff in Hmax as [H1 H2].
  apply Qltb_iff in H1. apply Qltb_iff in H2. auto.
Qed.

(** Every rep [detect_reps] returns spans at least [MIN_SAMPLES_BETWEEN_PEAKS]
    (5) confident samples, so a non-empty result has at most
    [(n - 3) / 5] reps for [n] confident samples. *)
Theorem detect_reps_spacing (rd : RepDetector) (samples : list PositionSample) :
  (forall r, In r (detect_reps rd samples) ->
             (start_idx r + MIN_SAMPLES_BETWEEN_PEAKS <= end_idx r)%nat)
  /\ (detect_reps rd samples <> [] ->
      (MIN_SAMPLES_BETWEEN_PEAKS * length (detect_reps rd samples) + 3
       <= length (filter (confident rd) samples))%nat).
Proof.
  destruct (detect_reps_shape rd samples) as [E|E].
  { rewrite E. split; [intros _ []|intro H; congruence]. }
  cbv zeta in E. rewrite E.
  set (valid := filter (confident rd) samples) in *.
  set (signal := map Qopp (smooth_signal (map y valid) VELOCITY_SMOOTHING_WINDOW)).
  set (peaks := find_peaks signal MIN_SAMPLES_BETWEEN_PEAKS).
  assert (Hlen : length signal = length valid)
    by (unfold signal; rewrite length_map, smooth_signal_length, length_map; reflexivity).
  destruct (find_peaks_sorted_bounded signal MIN_SAMPLES_BETWEEN_PEAKS) as [Hlt Hb].
  destruct (find_peaks_spacing signal MIN_SAMPLES_BETWEEN_PEAKS) as [Hsp _].
  fold peaks in Hlt, Hb, Hsp.
  split.
  - intros r Hr. apply In_nth_error in Hr as [i Hi].
    destruct (nth_segment_pairs rd (map t valid) (map y valid) valid peaks Hlt
                ltac:(eapply Forall_impl; [|exact Hb]; simpl; intros q [_ Hq];
                      rewrite length_map; lia) i r Hi) as (p & q & Hp & Hq & Hs).
    destruct (segment_one_fields _ _ _ _ _ _ _ Hs) as (-> & -> & _).
    exact (StronglySorted_nth_error _ _ Hsp i (S i) p q ltac:(lia) Hp Hq).
  - intro Hne. pose proof (length_segment_pairs rd (map t valid) (map y valid) valid peaks) as Hseg.
    assert (Hk : (2 <= length peaks)%nat).
    { destruct (segment_pairs _ _ _ _ _); [congruence|simpl in Hseg; lia]. }
    assert (Hch := spaced_chain MIN_SAMPLES_BETWEEN_PEAKS (length valid - 1) peaks 1 Hsp
                     ltac:(eapply Forall_impl; [|exact Hb]; simpl; intros q Hq; lia)
                     ltac:(destruct peaks; [simpl in Hk; lia|discriminate])).
    unfold MIN_SAMPLES_BETWEEN_PEAKS in *. lia.
Qed.

(* ------------------------------------------------------------------ *)
(** ** [StreamingRepDetector] *)

Lemma key_eq_refl (k : Q * Q) : key_eq k k = true.
Proof. unfold key_eq. rewrite !Qeq_bool_refl. reflexivity. Qed.

(** [StreamingRepDetector.add_sample] appends exactly the reps it returns
    to the log; each of them is a rep of the current buffer whose
    [(start_time, end_time)] was not logged yet, and afterwards every rep of
    the current buffer is logged.  Configuration is left unchanged. *)
Theorem add_sample_log (st : StreamingRepDetector) (s : PositionSample) :
  let '(new_reps, st') := add_sample st s in
  get_all_reps st' = get_all_reps st ++ new_reps
  /\ (forall r, In r new_reps ->
        In r (detect_reps (detector st) (buffer st'))
        /\ key_mem (rep_key r) (map rep_key (get_all_reps st)) = false)
  /\ (forall r, In r (detect_reps (detector st) (buffer st')) ->
        key_mem (rep_key r) (map rep_key (get_all_reps st')) = true)
  /\ detector st' = detector st /\ buffer_seconds st' = buffer_seconds st.
Proof.
  unfold add_sample. destruct (prune _ _ _) as [samples2 lpi]. simpl.
  split; [reflexivity|]. split.
  - intros r Hr. apply filter_In in Hr as [Hr Hk]. apply negb_true_iff in Hk. auto.
  - split; [|auto]. intros r Hr. apply key_mem_app_new. right.
    apply key_mem_iff. exists (rep_key r). split; [apply in_map, Hr|apply key_eq_refl].
Qed.

Lemma prune_spec (cutoff : Q) (l : list PositionSample) (lpi : nat) :
  exists dropped, l = dropped ++ fst (prune cutoff l lpi)
  /\ (forall d, In d dropped -> t d < cutoff)
  /\ (forall h rest, fst (prune cutoff l lpi) = h :: rest -> cutoff <= t h)
  /\ (lpi = 0%nat -> snd (prune cutoff l lpi) = 0%nat).
Proof.
  revert lpi. induction l as [|h rest IH]; intro lpi.
  - exists []. simpl. split; [reflexivity|]. split; [intros _ []|]. split; [discriminate|auto].
  - simpl. destruct (Qltb (t h) cutoff) eqn:E.
    + destruct (IH (lpi - 1)%nat) as (d & Hd & Hlt & Hhd & Hz).
      exists (h :: d). split; [simpl; rewrite <- Hd; reflexivity|].
      split; [intros x [<-|Hx]; [apply Qltb_iff, E|apply Hlt, Hx]|].
      split; [exact Hhd|]. intro H0. apply Hz. lia.
    + exists []. simpl. split; [reflexivity|]. split; [intros _ []|].
      split; [|auto]. intros h' rest' Heq. injection Heq as <- _. apply Qltb_false_iff, E.
Qed.

Lemma suffix_of_snoc {A} (l d b : list A) (s : A) :
  l ++ [s] = d ++ b -> b <> [] -> exists k, b = k ++ [s].
Proof.
  intros H Hb. destruct (exists_last Hb) as (b' & x & ->).
  rewrite app_assoc in H. apply app_inj_tail in H as [_ ->]. exists b'. reflexivity.
Qed.

(** With a non-negative [buffer_seconds], [add_sample] keeps the new sample
    as the last one of the buffer, drops only samples older than
    [t - buffer_seconds] and only from the front, and stops at the first
    sample inside the window. *)
Theorem add_sample_buffer_window (st : StreamingRepDetector) (s : PositionSample) :
  0 <= buffer_seconds st ->
  (exists dropped, buffer st ++ [s] = dropped ++ buffer (snd (add_sample st s))
     /\ forall d, In d dropped -> t d < t s - buffer_seconds st)
  /\ (exists kept, buffer (snd (add_sample st s)) = kept ++ [s])
  /\ (forall h rest, buffer (snd (add_sample st s)) = h :: rest -> t s - buffer_seconds st <= t h).
Proof.
  intro Hbuf. unfold add_sample. rewrite last_last.
  destruct (prune_spec (t s - buffer_seconds st) (buffer st ++ [s]) (last_processed_idx st))
    as (d & Hd & Hlt & Hhd & _).
  destruct (prune _ _ _) as [samples2 lpi] eqn:Ep. simpl in *.
  split; [exists d; auto|]. split; [|exact Hhd].
  apply (suffix_of_snoc (buffer st) d samples2 s Hd).
  intro Hnil. subst samples2. rewrite app_nil_r in Hd.
  assert (Hs : In s d) by (rewrite <- Hd; apply in_or_app; right; left; reflexivity).
  specialize (Hlt s Hs). lra.
Qed.

Lemma add_sample_config (st : StreamingRepDetector) (s : PositionSample) :
  last_processed_idx st = 0%nat ->
  detector (snd (add_sample st s)) = detector st
  /\ buffer_seconds (snd (add_sample st s)) = buffer_seconds st
  /\ last_processed_idx (snd (add_sample st s)) = 0%nat.
Proof.
  intro H0. unfold add_sample. cbv zeta.
  destruct (prune_spec (t (last (buffer st ++ [s]) s) - buffer_seconds st) (buffer st ++ [s])
              (last_processed_idx st)) as (_ & _ & _ & _ & Hz).
  destruct (prune _ _ _) as [samples2 lpi]. simpl in *. split; [reflexivity|].
  split; [reflexivity|]. exact (Hz H0).
Qed.

(** [_last_processed_idx] is never advanced, and [reset] after any
    sequence of [add_sample] calls gives back the freshly constructed
    detector (same movement type, buffer length and confidence threshold). *)
Theorem streaming_reset_restores_init (mt : MovementType) (buf mc : Q)
    (samples : list PositionSample) :
  last_processed_idx (feed_all (StreamingRepDetector_init mt buf mc) samples) = 0%nat
  /\ StreamingRepDetector_reset (feed_all (StreamingRepDetector_init mt buf mc) samples)
     = StreamingRepDetector_init mt buf mc.
Proof.
  assert (H : forall st, last_processed_idx st = 0%nat ->
            detector (feed_all st samples) = detector st
            /\ buffer_seconds (feed_all st samples) = buffer_seconds st
            /\ last_processed_idx (feed_all st samples) = 0%nat).
  { unfold feed_all. induction samples as [|s rest IH]; intros st H0; [simpl; auto|].
    simpl. destruct (add_sample_config st s H0) as (E1 & E2 & E3).
    destruct (IH _ E3) as (F1 & F2 & F3). rewrite F1, F2, E1, E2. auto. }
  destruct (H (StreamingRepDetector_init mt buf mc) eq_refl) as (E1 & E2 & E3).
  split; [exact E3|]. unfold StreamingRepDetector_reset. rewrite E1, E2. reflexivity.
Qed.

(* ------------------------------------------------------------------ *)
(** ** [StreamingANTCalculator] *)

Definition ant_run_inv (st : StreamingANTCalculator) (pre : list ANTOp) : Prop :=
  ant_reps st = flat_map op_reps pre
  /\ last_result st = match pre with [] => None | _ => calculate (calculator st) (ant_reps st) end.

Definition is_add_op (op : ANTOp) : bool :=
  match op with OpReset => false | _ => true end.

Lemma ant_run_gen (ops : list ANTOp) : forall st pre,
  valid_config (calculator st) -> ant_run_inv st pre ->
  let '(outs, st') := ant_run st ops in
  calculator st' = calculator st
  /\ ant_run_inv st'
       (fold_left (fun acc op => match op with OpReset => [] | _ => acc ++ [op] end) ops pre)
  /\ (forall o, In o outs -> o <> None)
  /\ length outs = length (filter is_add_op ops).
Proof.
  induction ops as [|op rest IH]; intros st pre Hc [Hr Hl].
  - simpl. split; [reflexivity|]. split; [split; assumption|]. split; [intros _ []|reflexivity].
  - destruct op as [r|l|]; simpl.
    + unfold add_rep, ant_recalculate.
      destruct (calculate_total (calculator st) (ant_reps st ++ [r]) Hc) as [res Hres].
      rewrite Hres.
      specialize (IH (mkStreamingANT (calculator st) (ant_reps st ++ [r]) (Some res))
                     (pre ++ [OpAddRep r]) Hc).
      destruct (ant_run _ rest) as [os st2]. destruct IH as (E1 & Hinv & Hno & Hlen).
      { split; simpl.
        - rewrite flat_map_app, Hr. reflexivity.
        - destruct pre; simpl; symmetry; exact Hres. }
      split; [exact E1|]. split; [exact Hinv|]. split; [|simpl; rewrite Hlen; reflexivity].
      intros o [<-|Ho]; [discriminate|auto].
    + unfold add_reps, ant_recalculate.
      destruct (calculate_total (calculator st) (ant_reps st ++ l) Hc) as [res Hres].
      rewrite Hres.
      specialize (IH (mkStreamingANT (calculator st) (ant_reps st ++ l) (Some res))
                     (pre ++ [OpAddReps l]) Hc).
      destruct (ant_run _ rest) as [os st2]. destruct IH as (E1 & Hinv & Hno & Hlen).
      { split; simpl.
        - rewrite flat_map_app, Hr. simpl. rewrite app_nil_r. reflexivity.
        - destruct pre; simpl; symmetry; exact Hres. }
      split; [exact E1|]. split; [exact Hinv|]. split; [|simpl; rewrite Hlen; reflexivity].
      intros o [<-|Ho]; [discriminate|auto].
    + specialize (IH (StreamingANTCalculator_reset st) [] Hc).
      destruct (ant_run _ rest) as [os st2]. destruct IH as (E1 & Hinv & Hno & Hlen).
      { split; reflexivity. }
      auto.
Qed.

(** A [StreamingANTCalculator] built with a valid configuration keeps its
    calculator; after any sequence of [add_rep], [add_reps] and [reset]
    calls, its reps are exactly those handed in since the last [reset], in
    order; every [add_rep]/[add_reps] call returns a result (never raises),
    and [get_current_result] is [None] when nothing was added since the last
    [reset], and otherwise the batch result of [calculate] on the stored
    reps. *)
Theorem streaming_ant_run (B : Z) (d : Q) (w S : Z) (st : StreamingANTCalculator)
    (ops : list ANTOp) :
  StreamingANTCalculator_init B d w S = inr st ->
  let '(outs, st') := ant_run st ops in
  calculator st' = mkANTCalculator B d w S
  /\ ant_reps st' = flat_map op_reps (ops_since_reset ops)
  /\ get_current_result st'
     = match ops_since_reset ops with
       | [] => None
       | _ => calculate (mkANTCalculator B d w S) (ant_reps st')
       end
  /\ (forall o, In o outs -> o <> None)
  /\ length outs = length (filter is_add_op ops).
Proof.
  unfold StreamingANTCalculator_init. destruct (ANTCalculator_init B d w S) as [e|c] eqn:E;
    [discriminate|]. intro H. injection H as <-.
  destruct (valid_config_of_init B d w S c E) as [Hc ->].
  pose proof (ant_run_gen ops (mkStreamingANT (mkANTCalculator B d w S) [] None) [] Hc
                (conj eq_refl eq_refl)) as G.
  destruct (ant_run _ ops) as [outs st'].
  destruct G as (E1 & [Hr Hl] & Hno & Hlen). simpl in E1.
  unfold ops_since_reset, get_current_result. rewrite E1 in Hl. auto.
Qed.

(* ------------------------------------------------------------------ *)
(** ** [PoseEstimator.process_frame] and [VideoProcessor._pose_to_sample] *)

(** Python's truth value of a wrist entry (a 2-tuple or [None]). *)
Definition wrist_present (w : option (Q * Q)) : bool :=
  match w with Some _ => true | None => false end.

(** [process_frame] raises only on a landmark list shorter than 17; it
    keeps the timestamp, reports a wrist exactly when its visibility is at
    least [MIN_VISIBILITY] (0.5), and marks the frame valid exactly when one
    of the two wrists is reported.  With no pose, both confidences are 0. *)
Theorem process_frame_wrists (lms : option (list Landmark)) (ts : Q) :
  match lms with Some l => (17 <= length l)%nat | None => True end ->
  exists pose, process_frame lms ts = Some pose
  /\ timestamp pose = ts
  /\ frame_valid pose = (wrist_present (left_wrist pose) || wrist_present (right_wrist pose))
  /\ (wrist_present (left_wrist pose) = true <-> MIN_VISIBILITY <= left_wrist_confidence pose)
  /\ (wrist_present (right_wrist pose) = true <-> MIN_VISIBILITY <= right_wrist_confidence pose)
  /\ (lms = None -> left_wrist_confidence pose == 0 /\ right_wrist_confidence pose == 0).
Proof.
  destruct lms as [l|]; intro Hl.
  - unfold process_frame.
    destruct (nth_error l LEFT_WRIST_IDX) as [a|] eqn:Ea;
      [|apply nth_error_None in Ea; unfold LEFT_WRIST_IDX in Ea; lia].
    destruct (nth_error l RIGHT_WRIST_IDX) as [b|] eqn:Eb;
      [|apply nth_error_None in Eb; unfold RIGHT_WRIST_IDX in Eb; lia].
    eexists. split; [reflexivity|]. simpl. split; [reflexivity|].
    split; [destruct (Qleb _ (visibility a)), (Qleb _ (visibility b)); reflexivity|].
    split; [|split; [|discriminate]].
    + rewrite <- Qleb_iff. destruct (Qleb _ (visibility a)); simpl; tauto.
    + rewrite <- Qleb_iff. destruct (Qleb _ (visibility b)); simpl; tauto.
  - eexists. split; [reflexivity|]. simpl. split; [reflexivity|]. split; [reflexivity|].
    unfold MIN_VISIBILITY. split; [|split; [|intros _; split; reflexivity]];
      split; intro H; [discriminate| |discriminate|]; exfalso;
      apply Qle_bool_iff in H; discriminate.
Qed.

(** In a single-arm movement the sample is built from the tracked wrist
    alone: it is [None] on an invalid frame or when that wrist is missing,
    and otherwise carries the frame's timestamp, that wrist's position and
    that wrist's confidence; the other wrist is never read. *)
Theorem pose_to_sample_single_arm (pose : FramePose) (mt : MovementType) :
  use_both_of mt = false ->
  pose_to_sample pose (use_left_of mt) (use_right_of mt) (use_both_of mt)
  = if frame_valid pose then
      match (if use_left_of mt then left_wrist pose else right_wrist pose) with
      | Some (px, py) =>
          Some (mkSample (timestamp pose) px py
                  (if use_left_of mt then left_wrist_confidence pose else right_wrist_confidence pose))
      | None => None
      end
    else None.
Proof.
  intro Hb. rewrite Hb. unfold pose_to_sample.
  destruct (frame_valid pose); [|reflexivity]. simpl.
  destruct mt; try discriminate; simpl;
    destruct (left_wrist pose) as [[]|], (right_wrist pose) as [[]|]; reflexivity.
Qed.

(** Two-arm swing: the sample is [None] exactly when the frame is invalid
    or neither wrist is present; a sample always carries the frame's
    timestamp, and (in every mode) its confidence lies between the two
    wrist confidences. *)
Theorem pose_to_sample_two_arm (pose : FramePose) (use_left use_right use_both : bool) :
  (pose_to_sample pose use_left use_right true = None
   <-> frame_valid pose = false \/ (left_wrist pose = None /\ right_wrist pose = None))
  /\ (forall s, pose_to_sample pose use_left use_right use_both = Some s ->
        frame_valid pose = true /\ t s = timestamp pose
        /\ Qmin (left_wrist_confidence pose) (right_wrist_confidence pose) <= confidence s
        /\ confidence s <= Qmax (left_wrist_confidence pose) (right_wrist_confidence pose)).
Proof.
  pose proof (Q.le_min_l (left_wrist_confidence pose) (right_wrist_confidence pose)).
  pose proof (Q.le_min_r (left_wrist_confidence pose) (right_wrist_confidence pose)).
  pose proof (Q.le_max_l (left_wrist_confidence pose) (right_wrist_confidence pose)).
  pose proof (Q.le_max_r (left_wrist_confidence pose) (right_wrist_confidence pose)).
  unfold pose_to_sample. split.
  - destruct (frame_valid pose); simpl;
      [destruct (left_wrist pose) as [[]|], (right_wrist pose) as [[]|]|];
      split; intuition (try discriminate).
  - intros s. destruct (frame_valid pose); [|discriminate]. simpl.
    destruct use_both, use_left, use_right, (left_wrist pose) as [[]|], (right_wrist pose) as [[]|];
      intro E; try discriminate; injection E as <-; simpl;
      (split; [reflexivity|split; [reflexivity|]]);
      try (split; assumption).
    all: split; [apply Qle_shift_div_l; [reflexivity|]|apply Qle_shift_div_r; [reflexivity|]]; lra.
Qed.

(* ------------------------------------------------------------------ *)
(** ** [VideoProcessor._build_rep_metrics] and [analyze_position_stream] *)

Lemma nth_error_map_combine_seq {B} (f : nat * DetectedRep -> B) (l : list DetectedRep) :
  forall k i, nth_error (map f (combine (seq k (length l)) l)) i
              = option_map (fun r => f ((k + i)%nat, r)) (nth_error l i).
Proof.
  induction l as [|r l IH]; intros k i; [destruct i; reflexivity|].
  destruct i as [|i]; simpl.
  - rewrite Nat.add_0_r. reflexivity.
  - rewrite IH. destruct (nth_error l i); simpl; [rewrite Nat.add_succ_r|]; reflexivity.
Qed.

(** [_build_rep_metrics] yields one metric per valid rep, in order: the
    [i]-th metric has [rep_index = i], the rep's times, duration and peak
    speed, [is_valid = True], and the [i]-th threshold flag, or [False]
    when the flag list is shorter. *)
Theorem build_rep_metrics_spec (valid_reps : list DetectedRep) (ant : ANTResult) :
  length (build_rep_metrics valid_reps ant) = length valid_reps
  /\ forall i rep, nth_error valid_reps i = Some rep ->
     nth_error (build_rep_metrics valid_reps ant) i
     = Some (Schemas.mkRepMetric (Z.of_nat i) (start_time rep) (end_time rep) (duration rep)
               (peak_speed rep) true
               (match nth_error (threshold_flags ant) i with Some b => b | None => false end)).
Proof.
  unfold build_rep_metrics. split.
  - rewrite length_map, length_combine, length_seq. lia.
  - intros i rep Hi. rewrite nth_error_map_combine_seq, Hi. simpl. f_equal. f_equal.
    destruct (i <? length (threshold_flags ant))%nat eqn:E.
    + apply Nat.ltb_lt in E. rewrite (nth_error_nth' _ false E). reflexivity.
    + apply Nat.ltb_ge in E. apply nth_error_None in E. rewrite E. reflexivity.
Qed.

(** [analyze_position_stream] raises [ValueError] exactly when
    [baseline_reps < 3] or [drop_threshold] is not strictly between 0 and
    1; otherwise it returns the reps [RepDetector(movement_type)] detects
    (confidence threshold 0.5) together with the result of [calculate] on
    them, and never raises [IndexError]. *)
Theorem analyze_position_stream_outcome (samples : list PositionSample) (mt : MovementType)
    (baseline_reps : Z) (drop_threshold : Q) :
  ((baseline_reps < 3)%Z \/ ~ (0 < drop_threshold /\ drop_threshold < 1) ->
   exists m, analyze_position_stream samples mt baseline_reps drop_threshold
             = inl (PipelineValueError m))
  /\ ((3 <= baseline_reps)%Z -> 0 < drop_threshold -> drop_threshold < 1 ->
      exists res,
        analyze_position_stream samples mt baseline_reps drop_threshold
        = inr (detect_reps (RepDetector_init mt (1 # 2)) samples, res)
        /\ calculate (mkANTCalculator baseline_reps drop_threshold 3 2)
             (detect_reps (RepDetector_init mt (1 # 2)) samples) = Some res).
Proof.
  unfold analyze_position_stream, ANTCalculator_init. split.
  - intro H. destruct (baseline_reps <? 3)%Z eqn:E1; [eexists; reflexivity|].
    destruct (negb (Qltb 0 drop_threshold && Qltb drop_threshold 1)) eqn:E2;
      [eexists; reflexivity|].
    exfalso. apply Z.ltb_ge in E1. apply negb_false_iff, andb_true_iff in E2 as [E2a E2b].
    apply Qltb_iff in E2a. apply Qltb_iff in E2b. destruct H as [H|H]; [lia|tauto].
  - intros HB Hd0 Hd1.
    replace (baseline_reps <? 3)%Z with false by (symmetry; apply Z.ltb_ge; exact HB).
    replace (Qltb 0 drop_threshold) with true by (symmetry; apply Qltb_iff; exact Hd0).
    replace (Qltb drop_threshold 1) with true by (symmetry; apply Qltb_iff; exact Hd1).
    simpl.
    destruct (calculate_total (mkANTCalculator baseline_reps drop_threshold 3 2)
                (detect_reps (RepDetector_init mt (1 # 2)) samples)) as [res Hres].
    { unfold valid_config. simpl. repeat split; try assumption; lia. }
    rewrite Hres. exists res. split; reflexivity.
Qed.

(* ------------------------------------------------------------------ *)
(** ** [PoseEstimator.process_video] and [VideoProcessor._extract_positions] *)

Lemma StronglySorted_filter_gen {A} (R : A -> A -> Prop) (f : A -> bool) (l : list A) :
  StronglySorted R l -> StronglySorted R (filter f l).
Proof.
  induction 1 as [|a l _ IH Hf]; simpl; [constructor|].
  destruct (f a); [|exact IH]. constructor; [exact IH|].
  apply Forall_forall. intros x Hx. apply filter_In in Hx as [Hx _].
  rewrite Forall_forall in Hf. auto.
Qed.

Lemma StronglySorted_map_gen {A B} (R : A -> A -> Prop) (R' : B -> B -> Prop) (g : A -> B)
    (l : list A) :
  (forall a b, R a b -> R' (g a) (g b)) -> StronglySorted R l -> StronglySorted R' (map g l).
Proof.
  intros Hg. induction 1 as [|a l _ IH Hf]; simpl; constructor; [exact IH|].
  apply Forall_forall. intros y Hy. apply in_map_iff in Hy as (x & <- & Hx).
  rewrite Forall_forall in Hf. auto.
Qed.

Lemma StronglySorted_unmap {A B} (R : B -> B -> Prop) (g : A -> B) (l : list A) :
  StronglySorted R (map g l) -> StronglySorted (fun a b => R (g a) (g b)) l.
Proof.
  induction l as [|a l IH]; simpl; intro H; [constructor|].
  apply StronglySorted_inv in H as [H Hf]. constructor; [auto|].
  apply Forall_forall. intros x Hx. rewrite Forall_forall in Hf. apply Hf, in_map, Hx.
Qed.

Lemma StronglySorted_seq (k n : nat) : StronglySorted lt (seq k n).
Proof.
  revert k. induction n as [|n IH]; intro k; simpl; constructor; [apply IH|].
  apply Forall_forall. intros x Hx. apply in_seq in Hx. lia.
Qed.

Lemma frame_time_lt (fps : Q) (i j : nat) :
  0 < fps -> (i < j)%nat -> inject_Z (Z.of_nat i) / fps < inject_Z (Z.of_nat j) / fps.
Proof.
  intros Hf Hij. unfold Qdiv. apply Qmult_lt_r; [apply Qinv_lt_0_compat, Hf|].
  rewrite <- Zlt_Qlt. lia.
Qed.

Lemma frame_time_nonneg (fps : Q) (i : nat) : 0 < fps -> 0 <= inject_Z (Z.of_nat i) / fps.
Proof.
  intro Hf. apply Qle_shift_div_l; [exact Hf|]. rewrite Qmult_0_l.
  change 0 with (inject_Z 0). rewrite <- Zle_Qle. lia.
Qed.

Lemma process_frame_some (lms : option (list Landmark)) (ts : Q) :
  match lms with Some l => (17 <= length l)%nat | None => True end ->
  exists pose, process_frame lms ts = Some pose /\ timestamp pose = ts
  /\ (forall p, left_wrist pose = Some p -> MIN_VISIBILITY <= left_wrist_confidence pose)
  /\ (forall p, right_wrist pose = Some p -> MIN_VISIBILITY <= right_wrist_confidence pose).
Proof.
  destruct lms as [l|]; intro Hl.
  - unfold process_frame.
    destruct (nth_error l LEFT_WRIST_IDX) as [a|] eqn:Ea;
      [|apply nth_error_None in Ea; unfold LEFT_WRIST_IDX in Ea; lia].
    destruct (nth_error l RIGHT_WRIST_IDX) as [b|] eqn:Eb;
      [|apply nth_error_None in Eb; unfold RIGHT_WRIST_IDX in Eb; lia].
    eexists. split; [reflexivity|]. simpl. split; [reflexivity|].
    split; intro p.
    + destruct (Qleb _ (visibility a)) eqn:E; [intros _; apply Qleb_iff, E|discriminate].
    + destruct (Qleb _ (visibility b)) eqn:E; [intros _; apply Qleb_iff, E|discriminate].
  - eexists. split; [reflexivity|]. simpl. split; [reflexivity|]. split; discriminate.
Qed.

Lemma pose_to_sample_source (pose : FramePose) (ul ur ub : bool) (s : PositionSample) :
  pose_to_sample pose ul ur ub = Some s ->
  t s = timestamp pose
  /\ ((exists p, left_wrist pose = Some p /\ confidence s = left_wrist_confidence pose)
      \/ (exists p, right_wrist pose = Some p /\ confidence s = right_wrist_confidence pose)
      \/ (exists p q, left_wrist pose = Some p /\ right_wrist pose = Some q
          /\ confidence s = (left_wrist_confidence pose + right_wrist_confidence pose) / 2)).
Proof.
  unfold pose_to_sample. destruct (frame_valid pose); [|discriminate]. simpl.
  destruct ub, ul, ur, (left_wrist pose) as [[]|] eqn:El, (right_wrist pose) as [[]|] eqn:Er;
    intro E; try discriminate; injection E as <-; simpl; split; try reflexivity;
    eauto 7.
Qed.

Lemma process_video_loop_spec {Frame MPState : Type}
    (mp : MPState -> Frame -> MPState * option (list Landmark)) (fps : Q) (skip : Z) :
  (1 <= skip)%Z -> 0 < fps ->
  (forall s f, match snd (mp s f) with Some l => (17 <= length l)%nat | None => True end) ->
  forall frames st k,
  snd (process_video_loop mp st fps skip frames k) = None
  /\ map timestamp (fst (process_video_loop mp st fps skip frames k))
     = map (fun i => inject_Z (Z.of_nat i) / fps)
           (filter (fun i => (Z.of_nat i mod skip =? 0)%Z) (seq k (length frames)))
  /\ (forall pose, In pose (fst (process_video_loop mp st fps skip frames k)) ->
        (forall p, left_wrist pose = Some p -> MIN_VISIBILITY <= left_wrist_confidence pose)
        /\ (forall p, right_wrist pose = Some p -> MIN_VISIBILITY <= right_wrist_confidence pose)).
Proof.
  intros Hs Hf Hmp. induction frames as [|fr rest IH]; intros st k; [simpl; split; auto; split; auto; intros _ []|].
  simpl. replace (skip =? 0)%Z with false by (symmetry; apply Z.eqb_neq; lia).
  destruct (Z.of_nat k mod skip =? 0)%Z eqn:Em; simpl.
  - replace (Qeq_bool fps 0) with false
      by (symmetry; apply not_true_iff_false; intro H; apply Qeq_bool_iff in H;
          rewrite H in Hf; discriminate).
    specialize (Hmp st fr). destruct (mp st fr) as [st1 lms]. simpl in Hmp.
    destruct (process_frame_some lms (inject_Z (Z.of_nat k) / fps) Hmp)
      as (pose & Hp & Ht & Hl & Hr).
    rewrite Hp. specialize (IH st1 (S k)).
    destruct (process_video_loop mp st1 fps skip rest (S k)) as [poses err].
    destruct IH as (E1 & E2 & E3). simpl in *.
    split; [exact E1|]. split; [rewrite Ht, E2; reflexivity|].
    intros pose' [<-|Hin]; auto.
  - apply IH.
Qed.

Lemma frame_skip_pos (fps tf : Q) :
  0 < fps -> 0 < tf ->
  (1 <= (if negb (Qeq_bool tf 0) && Qltb tf fps then py_int (fps / tf) else 1))%Z.
Proof.
  intros Hf Ht. destruct (negb (Qeq_bool tf 0) && Qltb tf fps) eqn:E; [|lia].
  apply andb_true_iff in E as [_ E]. apply Qltb_iff in E.
  assert (H1 : 1 <= fps / tf).
  { apply Qle_shift_div_l; [exact Ht|]. rewrite Qmult_1_l. apply Qlt_le_weak, E. }
  unfold py_int. replace (Qle_bool 0 (fps / tf)) with true
    by (symmetry; apply Qle_bool_iff; apply (Qle_trans _ 1); [discriminate|exact H1]).
  apply Qfloor_resp_le in H1. exact H1.
Qed.

Lemma frame_skip_simpl (fps tf : Q) :
  0 < tf ->
  (if negb (Qeq_bool tf 0) && Qltb tf fps then py_int (fps / tf) else 1%Z)
  = (if Qltb tf fps then py_int (fps / tf) else 1%Z).
Proof.
  intro Ht. replace (Qeq_bool tf 0) with false; [reflexivity|].
  symmetry. apply not_true_iff_false. intro H. apply Qeq_bool_iff in H. rewrite H in Ht.
  discriminate.
Qed.

(** With a positive native frame rate and target rate, and MediaPipe
    landmark lists that have the two wrists, [process_video] on an opened
    capture never raises; it keeps every [frame_skip]-th frame, where
    [frame_skip = int(fps / target_fps)] (at least 1) when the target is
    below the native rate and 1 otherwise, and the [i]-th frame kept is
    stamped [frame_idx / fps]. *)
Theorem process_video_timestamps {Frame MPState : Type}
    (mp : MPState -> Frame -> MPState * option (list Landmark)) (st : MPState)
    (video_path : string) (fps tf : Q) (frames : list Frame) :
  0 < fps -> 0 < tf ->
  (forall s f, match snd (mp s f) with Some l => (17 <= length l)%nat | None => True end) ->
  let frame_skip := if Qltb tf fps then py_int (fps / tf) else 1%Z in
  (1 <= frame_skip)%Z
  /\ snd (process_video mp st video_path true fps (Some tf) frames) = None
  /\ map timestamp (fst (process_video mp st video_path true fps (Some tf) frames))
     = map (fun i => inject_Z (Z.of_nat i) / fps)
           (filter (fun i => (Z.of_nat i mod frame_skip =? 0)%Z) (seq 0 (length frames))).
Proof.
  intros Hf Ht Hmp frame_skip. unfold process_video, frame_skip. simpl negb. cbv iota.
  pose proof (frame_skip_pos fps tf Hf Ht) as Hs. rewrite frame_skip_simpl in * by exact Ht.
  destruct (process_video_loop_spec mp fps _ Hs Hf Hmp frames st 0) as (E1 & E2 & _).
  auto.
Qed.

Lemma extract_loop_samples (vp : VideoProcessor) (ul ur ub : bool) (total : Z) :
  forall poses k,
  (forall s, In s (snd (extract_loop vp ul ur ub total poses k)) ->
     exists pose, In pose poses /\ pose_to_sample pose ul ur ub = Some s)
  /\ (length (snd (extract_loop vp ul ur ub total poses k)) <= length poses)%nat
  /\ (StronglySorted (fun a b => timestamp a < timestamp b) poses ->
      StronglySorted (fun a b => t a < t b) (snd (extract_loop vp ul ur ub total poses k))).
Proof.
  induction poses as [|pose rest IH]; intro k.
  - simpl. split; [intros _ []|]. split; [lia|constructor].
  - simpl. specialize (IH (S k)).
    destruct (extract_loop vp ul ur ub total rest (S k)) as [evs samples].
    destruct IH as (H1 & H2 & H3). simpl in *.
    destruct (pose_to_sample pose ul ur ub) as [s0|] eqn:Es.
    + split; [|split].
      * intros s [<-|Hs]; [exists pose; auto|]. destruct (H1 s Hs) as (p & Hp & Eq). eauto.
      * simpl. lia.
      * intro Hss. apply StronglySorted_inv in Hss as [Hss Hf]. constructor; [auto|].
        apply Forall_forall. intros s Hs. destruct (H1 s Hs) as (p & Hp & Eq).
        rewrite Forall_forall in Hf. specialize (Hf p Hp).
        rewrite (proj1 (pose_to_sample_source _ _ _ _ _ Es)),
                (proj1 (pose_to_sample_source _ _ _ _ _ Eq)). exact Hf.
    + split; [|split].
      * intros s Hs. destruct (H1 s Hs) as (p & Hp & Eq). eauto.
      * lia.
      * intro Hss. apply StronglySorted_inv in Hss as [Hss _]. auto.
Qed.

Lemma extract_video_spec {Frame MPState : Type}
    (mp : MPState -> Frame -> MPState * option (list Landmark)) (st : MPState)
    (video_path : string) (fps : Q) (frames : list Frame)
    (vp : VideoProcessor) (mt : MovementType) (total_frames : Z) :
  0 < fps ->
  (forall s f, match snd (mp s f) with Some l => (17 <= length l)%nat | None => True end) ->
  exists samples,
    snd (extract_positions vp mt total_frames
           (process_video mp st video_path true fps (Some TARGET_FPS) frames)) = inr samples
    /\ (length samples <= length frames)%nat
    /\ StronglySorted (fun a b => t a < t b) samples
    /\ (forall s, In s samples -> 0 <= t s /\ MIN_VISIBILITY <= confidence s)
    /\ filter (confident (RepDetector_init mt (1 # 2))) samples = samples.
Proof.
  intros Hf Hmp. unfold extract_positions.
  assert (Ht : 0 < TARGET_FPS) by reflexivity.
  pose proof (frame_skip_pos fps TARGET_FPS Hf Ht) as Hsk.
  rewrite frame_skip_simpl in Hsk by exact Ht.
  set (skip := if Qltb TARGET_FPS fps then py_int (fps / TARGET_FPS) else 1%Z) in *.
  assert (Epv : process_video mp st video_path true fps (Some TARGET_FPS) frames
                = process_video_loop mp st fps skip frames 0) by reflexivity.
  rewrite Epv.
  destruct (process_video_loop_spec mp fps skip Hsk Hf Hmp frames st 0) as (E1 & E2 & E3).
  destruct (process_video_loop mp st fps skip frames 0) as [poses err]. simpl in *.
  destruct (extract_loop_samples vp (use_left_of mt) (use_right_of mt) (use_both_of mt)
              total_frames poses 0) as (H1 & H2 & H3).
  destruct (extract_loop _ _ _ _ _ poses 0) as [evs samples]. simpl in *. subst err.
  assert (Htimes : forall pose, In pose poses -> 0 <= timestamp pose).
  { intros pose Hp. assert (Hm : In (timestamp pose) (map timestamp poses)) by (apply in_map, Hp).
    rewrite E2 in Hm. apply in_map_iff in Hm as (i & <- & _). apply frame_time_nonneg, Hf. }
  assert (Hconf : forall s, In s samples -> 0 <= t s /\ MIN_VISIBILITY <= confidence s).
  { intros s Hs. destruct (H1 s Hs) as (pose & Hp & Eq).
    destruct (pose_to_sample_source _ _ _ _ _ Eq) as (Et & Hc). rewrite Et.
    split; [apply Htimes, Hp|]. destruct (E3 pose Hp) as [Hl Hr].
    destruct Hc as [(p & Ep & ->)|[(p & Ep & ->)|(p & q & Ep & Eq' & ->)]]; eauto.
    apply Qle_shift_div_l; [reflexivity|].
    pose proof (Hl p Ep). pose proof (Hr q Eq'). unfold MIN_VISIBILITY in *. lra. }
  exists samples. split; [reflexivity|]. split.
  { apply (Nat.le_trans _ _ _ H2). rewrite <- (length_map timestamp poses), E2, length_map.
    etransitivity; [apply filter_length_le|]. rewrite length_seq. lia. }
  split; [|split; [exact Hconf|]].
  - apply H3. apply StronglySorted_unmap. rewrite E2.
    apply (StronglySorted_map_gen lt); [intros; apply frame_time_lt; assumption|].
    apply StronglySorted_filter_gen, StronglySorted_seq.
  - apply forallb_filter_id, forallb_forall. intros s Hs. apply Qleb_iff, (Hconf s Hs).
Qed.

(** When the video has a positive frame rate and MediaPipe's landmark
    lists have the two wrists, [_extract_positions] returns (never raises)
    at most one sample per frame, in strictly increasing time order, with
    non-negative timestamps and confidence at least 0.5; so the
    [RepDetector(movement_type)] of [analyze], whose confidence threshold
    is 0.5, keeps all of them. *)
Theorem extract_positions_samples {Frame MPState : Type}
    (mp : MPState -> Frame -> MPState * option (list Landmark)) (st : MPState)
    (video_path : string) (fps : Q) (frames : list Frame)
    (vp : VideoProcessor) (mt : MovementType) (total_frames : Z) :
  0 < fps ->
  (forall s f, match snd (mp s f) with Some l => (17 <= length l)%nat | None => True end) ->
  exists samples,
    snd (extract_positions vp mt total_frames
           (process_video mp st video_path true fps (Some TARGET_FPS) frames)) = inr samples
    /\ (length samples <= length frames)%nat
    /\ StronglySorted (fun a b => t a < t b) samples
    /\ (forall s, In s samples -> 0 <= t s /\ MIN_VISIBILITY <= confidence s)
    /\ filter (confident (RepDetector_init mt (1 # 2))) samples = samples.
Proof. intros Hf Hmp. exact (extract_video_spec mp st video_path fps frames vp mt total_frames Hf Hmp). Qed.

(* ------------------------------------------------------------------ *)
(** ** [VideoProcessor.analyze] *)

(** The list is sorted and all its values lie in [[a, b]]. *)
Definition sorted_in (a b : Q) (l : list Q) : Prop :=
  StronglySorted Qle l /\ forall p, In p l -> a <= p /\ p <= b.

Lemma sorted_in_nil (a b : Q) : sorted_in a b [].
Proof. split; [constructor|intros _ []]. Qed.

Lemma sorted_in_app (a b c : Q) (l1 l2 : list Q) :
  a <= b -> b <= c -> sorted_in a b l1 -> sorted_in b c l2 -> sorted_in a c (l1 ++ l2).
Proof.
  intros Hab Hbc [S1 R1] [S2 R2]. split.
  - induction l1 as [|x l1 IH]; simpl; [exact S2|].
    apply StronglySorted_inv in S1 as [S1 F1]. constructor.
    + apply IH; [exact S1|]. intros p Hp. apply R1. right. exact Hp.
    + apply Forall_forall. intros y Hy. apply in_app_or in Hy as [Hy|Hy].
      * rewrite Forall_forall in F1. auto.
      * destruct (R1 x (or_introl eq_refl)). destruct (R2 y Hy). lra.
  - intros p Hp. apply in_app_or in Hp as [Hp|Hp].
    + destruct (R1 p Hp). lra.
    + destruct (R2 p Hp). lra.
Qed.

Lemma sorted_in_weaken (a b a' b' : Q) (l : list Q) :
  a' <= a -> b <= b' -> sorted_in a b l -> sorted_in a' b' l.
Proof.
  intros H1 H2 [S R]. split; [exact S|]. intros p Hp. destruct (R p Hp). lra.
Qed.

Lemma sorted_in_report (vp : VideoProcessor) (p : Q) (m : ProgressMessage) :
  sorted_in p p (map fst (report_progress vp p m)).
Proof.
  unfold report_progress. destruct (has_progress_callback vp); [|apply sorted_in_nil].
  split; [repeat constructor|]. simpl. intros q [<-|[]]. split; apply Qle_refl.
Qed.

Definition extract_progress (total : Z) (k : nat) : Q :=
  Qmin (7 # 10) ((7 # 10) * (inject_Z (Z.of_nat k) / (inject_Z total / (30 / TARGET_FPS)))).

Lemma extract_progress_props (total : Z) (k : nat) :
  (0 < total)%Z ->
  0 <= extract_progress total k /\ extract_progress total k <= extract_progress total (S k)
  /\ extract_progress total k <= 7 # 10.
Proof.
  intro Ht. unfold extract_progress.
  assert (HD : 0 < inject_Z total / (30 / TARGET_FPS)).
  { unfold TARGET_FPS. apply Qlt_shift_div_l; [reflexivity|]. rewrite Qmult_0_l.
    change 0 with (inject_Z 0). rewrite <- Zlt_Qlt. exact Ht. }
  set (D := inject_Z total / (30 / TARGET_FPS)) in *.
  assert (Hk : forall j : nat, 0 <= inject_Z (Z.of_nat j) / D).
  { intro j. apply Qle_shift_div_l; [exact HD|]. rewrite Qmult_0_l.
    change 0 with (inject_Z 0). rewrite <- Zle_Qle. lia. }
  split; [|split].
  - apply Q.min_glb; [discriminate|]. specialize (Hk k). lra.
  - apply Q.min_le_compat_l. apply Qmult_le_l; [reflexivity|].
    unfold Qdiv. apply Qmult_le_r; [apply Qinv_lt_0_compat, HD|].
    rewrite <- Zle_Qle. lia.
  - apply Q.le_min_l.
Qed.

Lemma extract_loop_events (vp : VideoProcessor) (ul ur ub : bool) (total : Z) :
  forall poses k,
  ((0 < total)%Z -> sorted_in (extract_progress total k) (7 # 10)
                      (map fst (fst (extract_loop vp ul ur ub total poses k))))
  /\ ((total <= 0)%Z -> fst (extract_loop vp ul ur ub total poses k) = [])
  /\ (has_progress_callback vp = false -> fst (extract_loop vp ul ur ub total poses k) = []).
Proof.
  induction poses as [|pose rest IH]; intro k; simpl.
  - split; [intros _; apply sorted_in_nil|auto].
  - specialize (IH (S k)). destruct (extract_loop vp ul ur ub total rest (S k)) as [evs samples].
    destruct IH as (IH1 & IH2 & IH3). simpl in *.
    split; [|split].
    + intro Ht. replace (0 <? total)%Z with true by (symmetry; apply Z.ltb_lt, Ht).
      destruct (extract_progress_props total k Ht) as (P0 & P1 & P2).
      rewrite map_app. apply (sorted_in_app _ (extract_progress total k));
        [lra|exact P2|apply sorted_in_report|].
      apply (sorted_in_weaken (extract_progress total (S k)) (7 # 10)); [exact P1|lra|auto].
    + intro Ht. replace (0 <? total)%Z with false by (symmetry; apply Z.ltb_ge, Ht).
      simpl. auto.
    + intro Hn. unfold report_progress. rewrite Hn. destruct (0 <? total)%Z; simpl; auto.
Qed.

Lemma extract_positions_events (vp : VideoProcessor) (mt : MovementType) (total : Z)
    (yielded : list FramePose * option PipelineError) :
  sorted_in 0 (7 # 10) (map fst (fst (extract_positions vp mt total yielded)))
  /\ (has_progress_callback vp = false -> fst (extract_positions vp mt total yielded) = []).
Proof.
  unfold extract_positions.
  destruct (extract_loop_events vp (use_left_of mt) (use_right_of mt) (use_both_of mt) total
              (fst yielded) 0) as (H1 & H2 & H3).
  destruct (extract_loop _ _ _ _ _ _ 0) as [evs samples]. simpl in *.
  assert (G : sorted_in 0 (7 # 10) (map fst evs) /\ (has_progress_callback vp = false -> evs = [])).
  { split; [|exact H3]. destruct (Z.lt_ge_cases 0 total) as [Ht|Ht].
    - destruct (extract_progress_props total 0 Ht) as (P0 & _ & _).
      apply (sorted_in_weaken (extract_progress total 0) (7 # 10)); [exact P0|lra|auto].
    - rewrite (H2 Ht). apply sorted_in_nil. }
  destruct (snd yielded); exact G.
Qed.

Lemma default_ANTCalculator_init :
  ANTCalculator_init BASELINE_REPS DROP_THRESHOLD SMOOTHING_WINDOW SUSTAIN_COUNT
  = inr (mkANTCalculator 5 (1 # 5) 3 2).
Proof. reflexivity. Qed.

(** [analyze] checks, in order and before any progress report: that the
    file exists ([FileNotFoundError]), that OpenCV opens it ([ValueError]),
    and that it lasts at least 5 seconds, a non-positive frame rate
    counting as a duration of 0 ([ValueError]). *)
Theorem analyze_guards {Frame MPState : Type}
    (mp : MPState -> Frame -> MPState * option (list Landmark)) (mp_state : MPState)
    (vp : VideoProcessor) (video_path : string) (path_exists is_opened : bool)
    (fps : Q) (frame_count : Z) (frames : list Frame) (mt : MovementType) :
  (path_exists = false ->
   analyze mp mp_state vp video_path path_exists is_opened fps frame_count frames mt
   = ([], inl (PipelineFileNotFoundError (String.append "Video not found: " video_path))))
  /\ (path_exists = true -> is_opened = false ->
      analyze mp mp_state vp video_path path_exists is_opened fps frame_count frames mt
      = ([], inl (PipelineValueError (String.append "Could not open video: " video_path))))
  /\ (path_exists = true -> is_opened = true -> (fps <= 0 \/ inject_Z frame_count / fps < 5) ->
      analyze mp mp_state vp video_path path_exists is_opened fps frame_count frames mt
      = ([], inl (PipelineValueError "Video too short. Need at least 5 seconds."))).
Proof.
  unfold analyze. split; [intros ->; reflexivity|]. split; [intros -> ->; reflexivity|].
  intros -> -> H. simpl negb. cbv iota.
  destruct (Qltb 0 fps) eqn:E.
  - apply Qltb_iff in E. destruct H as [H|H]; [lra|].
    replace (Qltb (inject_Z frame_count / fps) 5) with true by (symmetry; apply Qltb_iff, H).
    reflexivity.
  - reflexivity.
Qed.

(** On an existing, openable video with a positive frame rate, at least 5
    seconds long, and MediaPipe landmark lists that have the two wrists,
    [analyze] returns a result (it never raises).  The result is built
    from the samples [_extract_positions] returns and the reps
    [RepDetector(movement_type)] detects in them, with the ANT fields of
    [calculate] under the processor's configuration (5, 0.2, 3, 2): the
    valid and filtered rep counts add up to the detected reps, there is one
    rep metric per valid rep, the baseline uses [min(5, valid reps)] reps,
    and at most one sample is taken per frame. *)
Theorem analyze_success {Frame MPState : Type}
    (mp : MPState -> Frame -> MPState * option (list Landmark)) (mp_state : MPState)
    (vp : VideoProcessor) (video_path : string) (fps : Q) (frame_count : Z)
    (frames : list Frame) (mt : MovementType) :
  0 < fps -> 5 <= inject_Z frame_count / fps ->
  (forall s f, match snd (mp s f) with Some l => (17 <= length l)%nat | None => True end) ->
  exists samples ant result,
    let detected := detect_reps (RepDetector_init mt (1 # 2)) samples in
    let valid := filter is_valid detected in
    snd (extract_positions vp mt frame_count
           (process_video mp mp_state video_path true fps (Some TARGET_FPS) frames)) = inr samples
    /\ calculate (mkANTCalculator 5 (1 # 5) 3 2) detected = Some ant
    /\ snd (analyze mp mp_state vp video_path true true fps frame_count frames mt) = inr result
    /\ Schemas.movement_type result = mt
    /\ Schemas.video_duration_seconds result = inject_Z frame_count / fps
    /\ Schemas.total_valid_reps result = Z.of_nat (length valid)
    /\ length (Schemas.rep_metrics result) = length valid
    /\ (Schemas.total_valid_reps result
        + Schemas.invalid_reps_filtered (Schemas.diagnostics result))%Z = Z.of_nat (length detected)
    /\ (0 <= Schemas.invalid_reps_filtered (Schemas.diagnostics result))%Z
    /\ Schemas.baseline_reps_used (Schemas.diagnostics result)
       = Z.min 5 (Schemas.total_valid_reps result)
    /\ Schemas.frames_sampled (Schemas.diagnostics result) = Z.of_nat (length samples)
    /\ (length samples <= length frames)%nat
    /\ Schemas.fps_used (Schemas.diagnostics result) = 15
    /\ Schemas.baseline_speed result = baseline_speed ant
    /\ Schemas.ant_reached result = ant_reached ant
    /\ Schemas.ant_rep_index result = ant_rep_index ant
    /\ Schemas.ant_timestamp_seconds result = ant_timestamp_seconds ant
    /\ Schemas.drop_percent_at_ant result = drop_percent_at_ant ant
    /\ Schemas.rep_metrics result = build_rep_metrics valid ant.
Proof.
  intros Hf Hd Hmp.
  destruct (extract_video_spec mp mp_state video_path fps frames vp mt frame_count Hf Hmp)
    as (samples & Es & Hlen & _ & _ & _).
  set (detected := detect_reps (RepDetector_init mt (1 # 2)) samples).
  destruct (calculate_total (mkANTCalculator 5 (1 # 5) 3 2) detected) as [ant Hant].
  { unfold valid_config. simpl. repeat split; try lia; reflexivity. }
  unfold analyze. simpl negb. cbv iota.
  replace (Qltb 0 fps) with true by (symmetry; apply Qltb_iff, Hf).
  replace (Qltb (inject_Z frame_count / fps) 5) with false by (symmetry; apply Qltb_false_iff, Hd).
  destruct (extract_positions vp mt frame_count _) as [ev1 res] eqn:Ex. simpl in Es. subst res.
  rewrite default_ANTCalculator_init. fold detected. rewrite Hant.
  do 3 eexists. cbv zeta. split; [reflexivity|]. split; [exact Hant|].
  split; [reflexivity|]. simpl.
  assert (Hv : (length (filter is_valid detected) <= length detected)%nat) by apply filter_length_le.
  unfold build_rep_metrics. rewrite length_map, length_combine, length_seq, Nat.min_id.
  unfold detected in *. repeat split; try reflexivity; try lia; exact Hlen.
Qed.

(** The progress reports of [analyze] are non-decreasing and lie in
    [[0, 1]]; none is made without a callback; and on success with a
    callback the first report is [(0.0, "Starting pose estimation...")]
    and the last [(1.0, "Analysis complete.")]. *)
Theorem analyze_progress {Frame MPState : Type}
    (mp : MPState -> Frame -> MPState * option (list Landmark)) (mp_state : MPState)
    (vp : VideoProcessor) (video_path : string) (path_exists is_opened : bool)
    (fps : Q) (frame_count : Z) (frames : list Frame) (mt : MovementType) :
  let events := fst (analyze mp mp_state vp video_path path_exists is_opened fps frame_count frames mt) in
  StronglySorted Qle (map fst events)
  /\ (forall p, In p (map fst events) -> 0 <= p /\ p <= 1)
  /\ (has_progress_callback vp = false -> events = [])
  /\ (forall result,
        snd (analyze mp mp_state vp video_path path_exists is_opened fps frame_count frames mt)
        = inr result ->
        has_progress_callback vp = true ->
        exists mid, events = (0, PMText "Starting pose estimation...") :: mid
                             ++ [(1, PMText "Analysis complete.")]).
Proof.
  cbv zeta.
  assert (G : sorted_in 0 1 (map fst (fst (analyze mp mp_state vp video_path path_exists is_opened
                                              fps frame_count frames mt)))
              /\ (has_progress_callback vp = false ->
                  fst (analyze mp mp_state vp video_path path_exists is_opened fps frame_count
                         frames mt) = [])
              /\ (forall result,
                    snd (analyze mp mp_state vp video_path path_exists is_opened fps frame_count
                           frames mt) = inr result ->
                    has_progress_callback vp = true ->
                    exists mid, fst (analyze mp mp_state vp video_path path_exists is_opened fps
                                       frame_count frames mt)
                                = (0, PMText "Starting pose estimation...") :: mid
                                  ++ [(1, PMText "Analysis complete.")])).
  2: { destruct G as ([S R] & G2 & G3). auto. }
  unfold analyze.
  destruct path_exists; [|simpl; split; [apply sorted_in_nil|split; [auto|discriminate]]].
  destruct is_opened; [|simpl; split; [apply sorted_in_nil|split; [auto|discriminate]]].
  simpl negb. cbv iota.
  destruct (Qltb _ 5); [simpl; split; [apply sorted_in_nil|split; [auto|discriminate]]|].
  destruct (extract_positions_events vp mt frame_count
              (process_video mp mp_state video_path true fps (Some TARGET_FPS) frames)) as [E1 E2].
  destruct (extract_positions vp mt frame_count _) as [ev1 res]. simpl in E1, E2.
  assert (R0 := sorted_in_report vp 0 (PMText "Starting pose estimation...")).
  assert (R2 := sorted_in_report vp (7 # 10) (PMText "Detecting repetitions...")).
  assert (R3 := sorted_in_report vp (85 # 100) (PMText "Calculating anaerobic threshold...")).
  assert (R4 := sorted_in_report vp (95 # 100) (PMText "Generating results...")).
  assert (R5 := sorted_in_report vp 1 (PMText "Analysis complete.")).
  assert (Nil : forall p m, has_progress_callback vp = false -> report_progress vp p m = []).
  { intros p m Hn. unfold report_progress. rewrite Hn. reflexivity. }
  assert (Q01 : 0 <= 1) by discriminate.
  destruct res as [e|samples].
  - simpl. split; [|split; [|discriminate]].
    + rewrite map_app. apply (sorted_in_app 0 0 1); [apply Qle_refl|exact Q01|exact R0|].
      apply (sorted_in_weaken 0 (7 # 10)); [apply Qle_refl|discriminate|exact E1].
    + intro Hn. rewrite Nil, E2 by exact Hn. reflexivity.
  - rewrite default_ANTCalculator_init.
    destruct (calculate _ _) as [ant|]; simpl.
    + split; [|split].
      * rewrite !map_app. apply (sorted_in_app 0 0 1); [apply Qle_refl|exact Q01|exact R0|].
        apply (sorted_in_app 0 (7 # 10) 1); [discriminate|discriminate|exact E1|].
        apply (sorted_in_app (7 # 10) (7 # 10) 1); [apply Qle_refl|discriminate|exact R2|].
        apply (sorted_in_app (7 # 10) (85 # 100) 1); [discriminate|discriminate|
          apply (sorted_in_weaken (85 # 100) (85 # 100)); [discriminate|apply Qle_refl|exact R3]|].
        apply (sorted_in_app (85 # 100) (95 # 100) 1); [discriminate|discriminate|
          apply (sorted_in_weaken (95 # 100) (95 # 100)); [discriminate|apply Qle_refl|exact R4]|].
        apply (sorted_in_weaken 1 1); [discriminate|apply Qle_refl|exact R5].
      * intro Hn. rewrite !Nil, E2 by exact Hn. reflexivity.
      * intros result _ Hc. unfold report_progress at 1. rewrite Hc.
        eexists. simpl. f_equal.
        rewrite !app_assoc. f_equal. unfold report_progress. rewrite Hc. reflexivity.
    + split; [|split; [|discriminate]].
      * rewrite !map_app. apply (sorted_in_app 0 0 1); [apply Qle_refl|exact Q01|exact R0|].
        apply (sorted_in_app 0 (7 # 10) 1); [discriminate|discriminate|exact E1|].
        apply (sorted_in_app (7 # 10) (7 # 10) 1); [apply Qle_refl|discriminate|exact R2|].
        apply (sorted_in_weaken (85 # 100) (85 # 100)); [discriminate|discriminate|exact R3].
      * intro Hn. rewrite !Nil, E2 by exact Hn. reflexivity.
Qed.

(* ------------------------------------------------------------------ *)
(** ** Instances of the properties above *)

Lemma ex_mp_landmarks :
  forall (s : unit) (f : unit),
  match snd (ex_mp s f) with Some l => (17 <= length l)%nat | None => True end.
Proof. intros s f. apply Nat.leb_le. reflexivity. Qed.

Lemma calculate_result_consistent_witness :
  calculate drop_calculator drop_reps = Some drop_result
  /\ length (threshold_flags drop_result) = length (smoothed_speeds drop_result).
Proof.
  assert (Hcalc : calculate drop_calculator drop_reps = Some drop_result) by (vm_compute; reflexivity).
  split; [exact Hcalc|].
  exact (proj1 (calculate_result_consistent drop_calculator drop_reps drop_result Hcalc)).
Defined.

Lemma ant_smooth_within_bounds_witness :
  (forall v, In v [1; 2; 3; 4] -> 0 <= v <= 4)
  /\ (forall v, In v (ant_smooth [1; 2; 3; 4] 3) -> 0 <= v <= 4).
Proof.
  assert (H : forall v, In v [1; 2; 3; 4] -> 0 <= v <= 4).
  { intros v Hv. simpl in Hv. destruct Hv as [<-|[<-|[<-|[<-|[]]]]]; split; decide_q. }
  split; [exact H|]. exact (ant_smooth_within_bounds [1; 2; 3; 4] 3 0 4 H).
Defined.

Lemma smooth_signal_within_bounds_witness :
  (forall v, In v [1; 2; 3; 4] -> 0 <= v <= 4)
  /\ (forall v, In v (smooth_signal [1; 2; 3; 4] 3) -> 0 <= v <= 4).
Proof.
  assert (H : forall v, In v [1; 2; 3; 4] -> 0 <= v <= 4).
  { intros v Hv. simpl in Hv. destruct Hv as [<-|[<-|[<-|[<-|[]]]]]; split; decide_q. }
  split; [exact H|]. exact (smooth_signal_within_bounds [1; 2; 3; 4] 3 0 4 H).
Defined.

Lemma add_sample_buffer_window_witness :
  0 <= buffer_seconds (StreamingRepDetector_init SWING_LEFT 2 (1 # 2))
  /\ exists kept, buffer (snd (add_sample (StreamingRepDetector_init SWING_LEFT 2 (1 # 2))
                                         (mkSample 0 0 0 1)))
                  = kept ++ [mkSample 0 0 0 1].
Proof.
  assert (H : 0 <= buffer_seconds (StreamingRepDetector_init SWING_LEFT 2 (1 # 2))) by decide_q.
  split; [exact H|].
  exact (proj1 (proj2 (add_sample_buffer_window (StreamingRepDetector_init SWING_LEFT 2 (1 # 2))
                         (mkSample 0 0 0 1) H))).
Defined.

Lemma streaming_ant_run_witness :
  StreamingANTCalculator_init 5 (1 # 5) 3 2 = inr (mkStreamingANT default_calculator [] None)
  /\ ant_reps (snd (ant_run (mkStreamingANT default_calculator [] None)
                      [OpAddReps drop_reps; OpReset; OpAddRep (hd ex_first_rep drop_reps)]))
     = [hd ex_first_rep drop_reps].
Proof.
  assert (H : StreamingANTCalculator_init 5 (1 # 5) 3 2 = inr (mkStreamingANT default_calculator [] None))
    by reflexivity.
  split; [exact H|].
  pose proof (streaming_ant_run 5 (1 # 5) 3 2 _
                [OpAddReps drop_reps; OpReset; OpAddRep (hd ex_first_rep drop_reps)] H) as G.
  destruct (ant_run _ _) as [outs st'] eqn:E. simpl.
  exact (proj1 (proj2 G)).
Defined.

Lemma process_frame_wrists_witness :
  (17 <= length ex_landmarks)%nat
  /\ exists pose, process_frame (Some ex_landmarks) 0 = Some pose /\ timestamp pose = 0.
Proof.
  assert (H : (17 <= length ex_landmarks)%nat) by (apply Nat.leb_le; reflexivity).
  split; [exact H|].
  destruct (process_frame_wrists (Some ex_landmarks) 0 H) as (pose & E1 & E2 & _).
  exists pose. split; assumption.
Defined.

Lemma pose_to_sample_single_arm_witness :
  use_both_of SWING_LEFT = false
  /\ pose_to_sample ex_pose (use_left_of SWING_LEFT) (use_right_of SWING_LEFT) (use_both_of SWING_LEFT)
     = Some (mkSample 0 (1 # 2) (1 # 2) 1).
Proof.
  split; [reflexivity|]. rewrite (pose_to_sample_single_arm ex_pose SWING_LEFT eq_refl).
  reflexivity.
Defined.

Lemma process_video_timestamps_witness :
  0 < 30 /\ 0 < 15
  /\ snd (process_video ex_mp tt "clip.mp4" true 30 (Some 15) ex_frames) = None.
Proof.
  assert (H1 : 0 < 30) by decide_q. assert (H2 : 0 < 15) by decide_q.
  split; [exact H1|]. split; [exact H2|].
  exact (proj1 (proj2 (process_video_timestamps ex_mp tt "clip.mp4" 30 15 ex_frames H1 H2
                         ex_mp_landmarks))).
Defined.

Lemma extract_positions_samples_witness :
  0 < 30
  /\ exists samples,
       snd (extract_positions (mkVideoProcessor true) SWING_LEFT 150
              (process_video ex_mp tt "clip.mp4" true 30 (Some TARGET_FPS) ex_frames))
       = inr samples.
Proof.
  assert (H1 : 0 < 30) by decide_q. split; [exact H1|].
  destruct (extract_positions_samples ex_mp tt "clip.mp4" 30 ex_frames (mkVideoProcessor true)
              SWING_LEFT 150 H1 ex_mp_landmarks) as (samples & E & _).
  exists samples. exact E.
Defined.

Lemma analyze_success_witness :
  0 < 30 /\ 5 <= inject_Z 150 / 30
  /\ exists result,
       snd (analyze ex_mp tt (mkVideoProcessor true) "clip.mp4" true true 30 150 ex_frames SWING_LEFT)
       = inr result.
Proof.
  assert (H1 : 0 < 30) by decide_q. assert (H2 : 5 <= inject_Z 150 / 30) by decide_q.
  split; [exact H1|]. split; [exact H2|].
  destruct (analyze_success ex_mp tt (mkVideoProcessor true) "clip.mp4" 30 150 ex_frames SWING_LEFT
              H1 H2 ex_mp_landmarks) as (samples & ant & result & _ & _ & E & _).
  exists result. exact E.
Defined.

Lemma detect_reps_measures_nonneg_witness :
  In ex_first_rep (detect_reps swing_detector ex_samples)
  /\ 0 <= peak_speed ex_first_rep /\ 0 <= vertical_displacement ex_first_rep.
Proof.
  assert (Hin : In ex_first_rep (detect_reps swing_detector ex_samples))
    by (vm_compute; left; reflexivity).
  split; [exact Hin|]. exact (detect_reps_measures_nonneg swing_detector ex_samples ex_first_rep Hin).
Defined.
